(** * Kids-2D-Games: the Math Master quiz and the Balloon Pop arcade game

    A shallow embedding of the game logic of [src/MathMasterGame.tsx] and
    [src/BalloonPopGame.tsx]: the problem generator, the per-frame update
    steps, the answer and high-score bookkeeping, the balloon kind picker and
    the session phases.

    Conventions of the embedding.
    - JavaScript numbers that only ever hold integers (scores, lives, streaks,
      operands, millisecond counters) are [Z].
    - JavaScript numbers that hold fractions (the quiz timer, balloon
      coordinates and speeds, probabilities) are IEEE binary64 values, the
      primitive [float] of the kernel, so that rounding is the program's.
    - Arrays are lists; an array updated by index uses [<[i:=x]>].
    - A React state cell and the [useRef] cell mirroring it are both fields of
      the state record when the code reads both.
    - [Math.random()] reads an oracle: the caller supplies the draws.  *)

From Stdlib Require Import ZArith Lia Floats String Ascii DecimalString.
From Stdlib Require DecimalZ DecimalPos.
From stdpp Require Import base option list numbers relations sorting.

Local Open Scope Z_scope.

(** ** The random source

    [Math.random()] returns a binary64 of [0,1).  Where the code only uses
    [Math.floor(Math.random() * n)] or a comparison with [0.5], the draw is
    kept as its 53-bit numerator [k], the value drawn being [k / 2^53]. *)

Definition RANDOM_DENOMINATOR : Z := 2 ^ 53.

(** The numerator of a draw; any integer is reduced into [0, 2^53). *)
Definition numerator (k : Z) : Z := k mod RANDOM_DENOMINATOR.

(** [Math.floor(Math.random() * n)], as the floor of the exact product
    [k * n / 2^53].  The program floors the binary64 product, which for a
    draw next to a boundary can be the neighbouring integer; both are among
    [0 .. n-1], and that range is all the facts below use of a draw. *)
Definition Math_floor_random (k n : Z) : Z :=
  (numerator k * n) / RANDOM_DENOMINATOR.

(** [Math.random() > 0.5] *)
Definition Math_random_above_half (k : Z) : bool :=
  RANDOM_DENOMINATOR <? 2 * numerator k.

(** The draw whose [Math.floor(Math.random() * n)] is [j] (for [0 <= j < n]);
    used to write concrete runs. *)
Definition drawFor (j n : Z) : Z := (j * RANDOM_DENOMINATOR + n - 1) / n.

(** [Math.ceil] of a binary64, as an integer ([-0] and [0] are both [0];
    not-a-number and the infinities do not occur and are sent to [0]). *)
Definition Math_ceil (x : float) : Z :=
  match Prim2SF x with
  | S754_finite s m e =>
      let n := if s then Z.neg m else Z.pos m in
      if 0 <=? e then n * 2 ^ e else - ((- n) / 2 ^ (- e))
  | _ => 0
  end.

(** The four phases of a session ([type GameState] of the balloon game; the
    quiz stores the same strings and never sets ["paused"]). *)
Inductive GameState : Type := waiting | playing | paused | gameOver.

Global Instance GameState_eq_dec : EqDecision GameState.
Proof. solve_decision. Defined.

(** Repeating a per-frame step [n] times. *)
Fixpoint frames {S : Type} (step : S -> S) (n : nat) (s : S) : S :=
  match n with
  | O => s
  | Datatypes.S k => frames step k (step s)
  end.

(** * Math Master *)
Module MathMaster.

Definition GAME_DURATION : float := 60000. (* 60 seconds *)

(** [interface Problem] *)
Record Problem : Type := mkProblem { text : string; answer : Z }.

(** [interface Feedback] *)
Record Feedback : Type := mkFeedback { show : bool; correct : bool; message : string }.

(** The arithmetic operation of a problem (the local [operator], a one-symbol
    string in the source). *)
Inductive Operator : Type := Plus | Minus | Times | Divide.

(** The locals of [generateProblem] once the problem is chosen. *)
Record Operands : Type := mkOperands {
  num1 : Z; num2 : Z; operator : Operator; op_answer : Z }.

(** A string given by its bytes. *)
Definition bytes (codes : list nat) : string :=
  foldr (λ code rest, String (ascii_of_nat code) rest) EmptyString codes.

(** The symbol of an operator as the source file spells it: ['+'], ['-'],
    and for the product and the quotient the literals of bytes
    E2 88 9A C3 B3 and E2 88 9A E2 88 91. *)
Definition operatorSymbol (o : Operator) : string :=
  match o with
  | Plus => "+"
  | Minus => "-"
  | Times => bytes [226; 136; 154; 195; 179]%nat
  | Divide => bytes [226; 136; 154; 226; 136; 145]%nat
  end.

Definition numberText (n : Z) : string := NilZero.string_of_int (Z.to_int n).

(** The template literal [`${num1} op ${num2} = ?`]. *)
Definition problemText (o : Operands) : string :=
  (numberText (num1 o) ++ " " ++ operatorSymbol (operator o) ++ " "
     ++ numberText (num2 o) ++ " = ?")%string.

(** [generateProblem], first part: the operands, the operator and the answer,
    by difficulty.  Every [Math.random()] takes the next draw; [None] when the
    draws run out. *)
Definition generateProblem_operands (difficulty : Z) (draws : list Z)
  : option (Operands * list Z) :=
  if difficulty =? 1 then
    match draws with
    | r1 :: r2 :: r3 :: rest =>
        let num1 := Math_floor_random r1 10 + 1 in
        let num2 := Math_floor_random r2 10 + 1 in
        if Math_random_above_half r3 then
          Some (mkOperands num1 num2 Plus (num1 + num2), rest)
        else
          (* Ensure no negative answers for easy level *)
          let '(num1, num2) := if num1 <? num2 then (num2, num1) else (num1, num2) in
          Some (mkOperands num1 num2 Minus (num1 - num2), rest)
    | _ => None
    end
  else if difficulty =? 2 then
    match draws with
    | r0 :: r1 :: r2 :: rest =>
        let operationType := Math_floor_random r0 3 in
        if operationType =? 0 then
          let num1 := Math_floor_random r1 20 + 1 in
          let num2 := Math_floor_random r2 20 + 1 in
          Some (mkOperands num1 num2 Plus (num1 + num2), rest)
        else if operationType =? 1 then
          let num1 := Math_floor_random r1 20 + 1 in
          let num2 := Math_floor_random r2 num1 + 1 in
          Some (mkOperands num1 num2 Minus (num1 - num2), rest)
        else
          let num1 := Math_floor_random r1 5 + 1 in
          let num2 := Math_floor_random r2 5 + 1 in
          Some (mkOperands num1 num2 Times (num1 * num2), rest)
    | _ => None
    end
  else
    match draws with
    | r0 :: r1 :: r2 :: rest =>
        let operationType := Math_floor_random r0 4 in
        if operationType =? 0 then
          let num1 := Math_floor_random r1 50 + 1 in
          let num2 := Math_floor_random r2 50 + 1 in
          Some (mkOperands num1 num2 Plus (num1 + num2), rest)
        else if operationType =? 1 then
          let num1 := Math_floor_random r1 50 + 1 in
          let num2 := Math_floor_random r2 num1 + 1 in
          Some (mkOperands num1 num2 Minus (num1 - num2), rest)
        else if operationType =? 2 then
          let num1 := Math_floor_random r1 10 + 1 in
          let num2 := Math_floor_random r2 10 + 1 in
          Some (mkOperands num1 num2 Times (num1 * num2), rest)
        else
          let num2 := Math_floor_random r1 10 + 1 in
          let answer := Math_floor_random r2 10 + 1 in
          let num1 := num2 * answer in
          Some (mkOperands num1 num2 Divide answer, rest)
    | _ => None
    end.

(** The candidate of one round of the options loop. *)
Definition variantOf (difficulty answer r : Z) : Z :=
  if difficulty =? 1 then answer + Math_floor_random r 5 - 2
  else if difficulty =? 2 then answer + Math_floor_random r 8 - 4
  else answer + Math_floor_random r 10 - 5.

(** [generateProblem], second part: [while (optionsList.length < 4)].  Each
    round takes one draw; the loop is [None] while it is still running when
    the draws are used up. *)
Fixpoint generateProblem_options (difficulty answer : Z) (optionsList draws : list Z)
  : option (list Z * list Z) :=
  if (length optionsList <? 4)%nat then
    match draws with
    | [] => None
    | r :: rest =>
        let variant := variantOf difficulty answer r in
        (* Ensure variants are positive and not duplicates *)
        if (0 <? variant) && negb (bool_decide (variant ∈ optionsList)) then
          generateProblem_options difficulty answer (optionsList ++ [variant]) rest
        else
          generateProblem_options difficulty answer optionsList rest
    end
  else Some (optionsList, draws).

(** [[a[i], a[j]] = [a[j], a[i]]] on an array (indices within the array, as
    they are in the shuffle). *)
Definition swap (a : list Z) (i j : nat) : list Z :=
  match a !! i, a !! j with
  | Some x, Some y => <[j:=x]> (<[i:=y]> a)
  | _, _ => a
  end.

(** [generateProblem], third part: the shuffle,
    [for (let i = optionsList.length - 1; i > 0; i--)]. *)
Fixpoint shuffleFrom (i : nat) (optionsList draws : list Z) : option (list Z * list Z) :=
  match i with
  | O => Some (optionsList, draws)
  | S i' =>
      match draws with
      | [] => None
      | r :: rest =>
          let j := Z.to_nat (Math_floor_random r (Z.of_nat i + 1)) in
          shuffleFrom i' (swap optionsList i j) rest
      end
  end.

Definition generateProblem_shuffle (optionsList draws : list Z) : option (list Z * list Z) :=
  shuffleFrom (length optionsList - 1) optionsList draws.

(** [generateProblem]: the problem and the options it hands to
    [setCurrentProblem] and [setOptions], and the draws left. *)
Definition generateProblem (difficulty : Z) (draws : list Z)
  : option (Problem * list Z * list Z) :=
  '(o, draws1) ← generateProblem_operands difficulty draws;
  '(optionsList, draws2) ← generateProblem_options difficulty (op_answer o) [op_answer o] draws1;
  '(shuffled, draws3) ← generateProblem_shuffle optionsList draws2;
  Some (mkProblem (problemText o) (op_answer o), shuffled, draws3).

(** The component's state: the [useState] cells and the two [useRef] cells
    the game logic reads, and the [mathMasterHighScores] item of
    [localStorage] (absent, or the list last written). *)
Record State : Type := mkState {
  gameState : GameState;
  score : Z;
  timeLeft : Z;
  showTutorial : bool;
  currentProblem : option Problem;
  options : list Z;
  difficulty : Z;
  correctStreak : Z;
  maxStreak : Z;
  feedback : Feedback;
  highScores : list Z;
  gameStateRef : GameState;
  timeLeftRef : float;
  localStorage : option (list Z) }.

Definition setGameState (v : GameState) (s : State) : State :=
  mkState v (score s) (timeLeft s) (showTutorial s) (currentProblem s) (options s)
    (difficulty s) (correctStreak s) (maxStreak s) (feedback s) (highScores s)
    (gameStateRef s) (timeLeftRef s) (localStorage s).
Definition setScore (v : Z) (s : State) : State :=
  mkState (gameState s) v (timeLeft s) (showTutorial s) (currentProblem s) (options s)
    (difficulty s) (correctStreak s) (maxStreak s) (feedback s) (highScores s)
    (gameStateRef s) (timeLeftRef s) (localStorage s).
Definition setTimeLeft (v : Z) (s : State) : State :=
  mkState (gameState s) (score s) v (showTutorial s) (currentProblem s) (options s)
    (difficulty s) (correctStreak s) (maxStreak s) (feedback s) (highScores s)
    (gameStateRef s) (timeLeftRef s) (localStorage s).
Definition setShowTutorial (v : bool) (s : State) : State :=
  mkState (gameState s) (score s) (timeLeft s) v (currentProblem s) (options s)
    (difficulty s) (correctStreak s) (maxStreak s) (feedback s) (highScores s)
    (gameStateRef s) (timeLeftRef s) (localStorage s).
Definition setCurrentProblem (v : option Problem) (s : State) : State :=
  mkState (gameState s) (score s) (timeLeft s) (showTutorial s) v (options s)
    (difficulty s) (correctStreak s) (maxStreak s) (feedback s) (highScores s)
    (gameStateRef s) (timeLeftRef s) (localStorage s).
Definition setOptions (v : list Z) (s : State) : State :=
  mkState (gameState s) (score s) (timeLeft s) (showTutorial s) (currentProblem s) v
    (difficulty s) (correctStreak s) (maxStreak s) (feedback s) (highScores s)
    (gameStateRef s) (timeLeftRef s) (localStorage s).
Definition setDifficulty (v : Z) (s : State) : State :=
  mkState (gameState s) (score s) (timeLeft s) (showTutorial s) (currentProblem s) (options s)
    v (correctStreak s) (maxStreak s) (feedback s) (highScores s)
    (gameStateRef s) (timeLeftRef s) (localStorage s).
Definition setCorrectStreak (v : Z) (s : State) : State :=
  mkState (gameState s) (score s) (timeLeft s) (showTutorial s) (currentProblem s) (options s)
    (difficulty s) v (maxStreak s) (feedback s) (highScores s)
    (gameStateRef s) (timeLeftRef s) (localStorage s).
Definition setMaxStreak (v : Z) (s : State) : State :=
  mkState (gameState s) (score s) (timeLeft s) (showTutorial s) (currentProblem s) (options s)
    (difficulty s) (correctStreak s) v (feedback s) (highScores s)
    (gameStateRef s) (timeLeftRef s) (localStorage s).
Definition setFeedback (v : Feedback) (s : State) : State :=
  mkState (gameState s) (score s) (timeLeft s) (showTutorial s) (currentProblem s) (options s)
    (difficulty s) (correctStreak s) (maxStreak s) v (highScores s)
    (gameStateRef s) (timeLeftRef s) (localStorage s).
Definition setHighScores (v : list Z) (s : State) : State :=
  mkState (gameState s) (score s) (timeLeft s) (showTutorial s) (currentProblem s) (options s)
    (difficulty s) (correctStreak s) (maxStreak s) (feedback s) v
    (gameStateRef s) (timeLeftRef s) (localStorage s).
Definition set_gameStateRef (v : GameState) (s : State) : State :=
  mkState (gameState s) (score s) (timeLeft s) (showTutorial s) (currentProblem s) (options s)
    (difficulty s) (correctStreak s) (maxStreak s) (feedback s) (highScores s)
    v (timeLeftRef s) (localStorage s).
Definition set_timeLeftRef (v : float) (s : State) : State :=
  mkState (gameState s) (score s) (timeLeft s) (showTutorial s) (currentProblem s) (options s)
    (difficulty s) (correctStreak s) (maxStreak s) (feedback s) (highScores s)
    (gameStateRef s) v (localStorage s).
Definition set_localStorage (v : option (list Z)) (s : State) : State :=
  mkState (gameState s) (score s) (timeLeft s) (showTutorial s) (currentProblem s) (options s)
    (difficulty s) (correctStreak s) (maxStreak s) (feedback s) (highScores s)
    (gameStateRef s) (timeLeftRef s) v.

(** The state of the first render, before any effect has run
    ([GAME_DURATION / 1000] is the integer 60, which [Math_ceil] reads off
    for the displayed [timeLeft]). *)
Definition initialState (stored : option (list Z)) : State :=
  mkState waiting 0 (Math_ceil (GAME_DURATION / 1000)) true None [] 1 0 0
    (mkFeedback false false "") [] waiting (GAME_DURATION / 1000) stored.

(** Effect: load high scores from [localStorage]. *)
Definition loadHighScores (s : State) : State :=
  match localStorage s with
  | Some savedHighScores => setHighScores savedHighScores s
  | None => s
  end.

(** [.sort((a, b) => b - a)]: numbers in descending order ([a] may stand
    before [b] when [b - a] is not positive). *)
Definition descending (a b : Z) : Prop := b ≤ a.

Global Instance descending_dec : RelDecision descending.
Proof. intros a b. unfold descending. apply _. Defined.

Definition sortDescending (l : list Z) : list Z := merge_sort descending l.

(** Effect: save high score when game ends (one run of the effect). *)
Definition saveHighScore (s : State) : State :=
  if bool_decide (gameState s = gameOver) && (0 <? score s) then
    let newHighScores := take 5 (sortDescending (highScores s ++ [score s])) in (* top 5 *)
    set_localStorage (Some newHighScores) (setHighScores newHighScores s)
  else s.

(** The callback [generateProblem] of a render: it reads [difficulty] and
    sets the problem and the options. *)
Definition runGenerateProblem (draws : list Z) (s : State) : option (State * list Z) :=
  '(problem, optionsList, rest) ← generateProblem (difficulty s) draws;
  Some (setOptions optionsList (setCurrentProblem (Some problem) s), rest).

(** The time one frame takes off the timer: [1 / 60], assuming 60fps. *)
Definition FRAME : float := 1 / 60.

(** [update], the per-frame step. *)
Definition update (s : State) : State :=
  if bool_decide (gameStateRef s ≠ playing) then s
  else
    (* Update time *)
    let s := set_timeLeftRef (timeLeftRef s - FRAME)%float s in
    let s := setTimeLeft (Math_ceil (timeLeftRef s)) s in
    if (timeLeftRef s <=? 0)%float then
      set_gameStateRef gameOver (setGameState gameOver s)
    else
      (* Increase difficulty based on score *)
      if (30 <=? score s) && (difficulty s <? 3) then setDifficulty 3 s
      else if (15 <=? score s) && (difficulty s <? 2) then setDifficulty 2 s
      else s.

Definition praise : list string := ["Great!"; "Awesome!"; "Correct!"; "Well done!"]%string.

(** [checkAnswer(selectedAnswer)]; [r] is the draw that picks the praise of
    a correct answer.  [handleCanvasClick] calls it with the option whose
    bubble the click falls into. *)
Definition checkAnswer (r : Z) (selectedAnswer : Z) (s : State) : State :=
  match currentProblem s with
  | None => s
  | Some problem =>
      if selectedAnswer =? answer problem then
        (* Correct answer *)
        let points := difficulty s * 5 in
        let newStreak := correctStreak s + 1 in
        let s1 := setScore (score s + points) s in
        let s2 := if maxStreak s <? newStreak then setMaxStreak newStreak s1 else s1 in
        let s3 := setCorrectStreak newStreak s2 in
        setFeedback
          (mkFeedback true true (default ""%string (praise !! Z.to_nat (Math_floor_random r 4))))
          s3
      else
        (* Wrong answer *)
        setFeedback (mkFeedback true false "Try again!") (setCorrectStreak 0 s)
  end.

(** The timeout [checkAnswer] arms: hide the feedback and generate a new
    problem.  The [generateProblem] it calls is the callback of the render
    in which the answer was clicked, so it generates at [renderDifficulty],
    the difficulty of that render, whatever the difficulty has become. *)
Definition feedbackTimeout (renderDifficulty : Z) (draws : list Z) (s : State)
  : option (State * list Z) :=
  '(problem, optionsList, rest) ← generateProblem renderDifficulty draws;
  Some (setOptions optionsList
          (setCurrentProblem (Some problem) (setFeedback (mkFeedback false false "") s)),
        rest).

Definition startGame (s : State) : State :=
  let s := setScore 0 s in
  let s := setCorrectStreak 0 s in
  let s := setMaxStreak 0 s in
  let s := setDifficulty 1 s in
  let s := setTimeLeft (Math_ceil (GAME_DURATION / 1000)) s in
  let s := set_timeLeftRef (GAME_DURATION / 1000)%float s in
  let s := setGameState playing s in
  let s := set_gameStateRef playing s in
  setShowTutorial false s.

Definition resetHighScores (s : State) : State :=
  set_localStorage None (setHighScores [] s).

(** *** The properties the specification states, in its words *)

(** The Challenge invariant of the specification: the correct answer is one
    of the choices, there are 4 choices, all distinct, all positive. *)
Definition challengeInvariant (p : Problem) (choices : list Z) : Prop :=
  answer p ∈ choices ∧ length choices = 4%nat ∧ NoDup choices ∧ Forall (λ c, 0 < c) choices.

(** The invariant the generator keeps: as above, but the correct answer may
    be [0]; the other choices are positive. *)
Definition generatedInvariant (p : Problem) (choices : list Z) : Prop :=
  answer p ∈ choices ∧ length choices = 4%nat ∧ NoDup choices ∧
  0 ≤ answer p ∧ Forall (λ c, c ≠ answer p → 0 < c) choices.

(** The tier the specification derives from the score: tier 2 once the
    score is 15, tier 3 once it is 30, never below the tier held. *)
Definition tierFromScore (score tier : Z) : Z :=
  if 30 <=? score then Z.max tier 3
  else if 15 <=? score then Z.max tier 2
  else tier.

(** The best-scores list of the specification: insert, sort descending,
    truncate to the top 5. *)
Definition recordScore (scores : list Z) (score : Z) : list Z :=
  take 5 (sortDescending (scores ++ [score])).

(** *** Shapes and sample states the facts below refer to *)

(** What [generateProblem_operands] can return, whatever the difficulty:
    an addition, subtraction or multiplication of positive operands, the
    subtraction never below zero, or an exact division. *)
Inductive wellFormed (o : Operands) : Prop :=
  | wf_plus : operator o = Plus → 1 ≤ num1 o → 1 ≤ num2 o →
      op_answer o = num1 o + num2 o → wellFormed o
  | wf_minus : operator o = Minus → 1 ≤ num2 o ≤ num1 o →
      op_answer o = num1 o - num2 o → wellFormed o
  | wf_times : operator o = Times → 1 ≤ num1 o → 1 ≤ num2 o →
      op_answer o = num1 o * num2 o → wellFormed o
  | wf_divide : operator o = Divide → 1 ≤ num2 o ≤ 10 → 1 ≤ op_answer o ≤ 10 →
      num1 o = num2 o * op_answer o → wellFormed o.

(** What happens within a session: every operation but [startGame], which
    begins the next session.  A feedback timeout may carry the difficulty of
    any earlier render; the tutorial buttons and the effect that copies
    [gameState] into its ref are steps too. *)
Inductive sessionStep (s : State) : State → Prop :=
  | step_update : sessionStep s (update s)
  | step_checkAnswer (r selectedAnswer : Z) : sessionStep s (checkAnswer r selectedAnswer s)
  | step_generate (draws rest : list Z) (s' : State) :
      runGenerateProblem draws s = Some (s', rest) → sessionStep s s'
  | step_feedbackTimeout (renderDifficulty : Z) (draws rest : list Z) (s' : State) :
      feedbackTimeout renderDifficulty draws s = Some (s', rest) → sessionStep s s'
  | step_saveHighScore : sessionStep s (saveHighScore s)
  | step_loadHighScores : sessionStep s (loadHighScores s)
  | step_resetHighScores : sessionStep s (resetHighScores s)
  | step_showTutorial (shown : bool) : sessionStep s (setShowTutorial shown s)
  | step_syncRef : sessionStep s (set_gameStateRef (gameState s) s).

(** What happens in the component at all: a step of the session, or
    [startGame], from the canvas or from the "Reset Game" button. *)
Inductive gameStep (s : State) : State → Prop :=
  | game_session (s' : State) : sessionStep s s' → gameStep s s'
  | game_start : gameStep s (startGame s).

(** A medium-tier run: operation type 1 (subtraction), [num1 = 5],
    [num2 = 5], then the offsets +1, +2, +3 and a shuffle. *)
Definition runFiveMinusFive : list Z :=
  [drawFor 1 3; drawFor 4 20; drawFor 4 5; drawFor 5 8; drawFor 6 8; drawFor 7 8; 0; 0; 0].

(** An easy-tier run: [num1 = 4], [num2 = 5], an addition, then the offsets
    +1, +2, -1 and a shuffle. *)
Definition runFourPlusFive : list Z :=
  [drawFor 3 10; drawFor 4 10; drawFor 3 4; drawFor 3 5; drawFor 4 5; drawFor 1 5; 0; 0; 0].

(** A streak of 2 with a best of 4: right, then wrong. *)
Definition midGame : State :=
  setMaxStreak 4 (setCorrectStreak 2
    (setCurrentProblem (Some (mkProblem "5 - 5 = ?" 0)) (startGame (initialState None)))).

(** A game that ends with 20 points against the stored [30; 10]. *)
Definition endedGame : State :=
  setHighScores [30; 10]
    (setScore 20 (frames update 3601 (startGame (initialState (Some [30; 10]))))).

(** *** Further properties, in the code's terms *)

(** The value of [num1 op num2]. *)
Definition evalOperator (op : Operator) (a b : Z) : Z :=
  match op with
  | Plus => a + b
  | Minus => a - b
  | Times => a * b
  | Divide => a `div` b
  end.

(** Reading a problem text the way a player does: the first word of a
    text and what follows the space after it. *)
Fixpoint firstWord (s : string) : string * string :=
  match s with
  | EmptyString => (EmptyString, EmptyString)
  | String c rest =>
      if Ascii.eqb c " " then (EmptyString, rest)
      else let '(word, after) := firstWord rest in (String c word, after)
  end.

(** A decimal numeral read as a number. *)
Definition readNumber (s : string) : option Z := Z.of_int <$> NilZero.int_of_string s.

(** An operator symbol read as an operator. *)
Definition readOperator (s : string) : option Operator :=
  if String.eqb s "+" then Some Plus
  else if String.eqb s "-" then Some Minus
  else if String.eqb s (bytes [226; 136; 154; 195; 179]%nat) then Some Times
  else if String.eqb s (bytes [226; 136; 154; 226; 136; 145]%nat) then Some Divide
  else None.

(** A text [a op b = ?] read as the left operand, the operator and the
    right operand. *)
Definition readProblem (text : string) : option (Z * Operator * Z) :=
  let '(first, after1) := firstWord text in
  let '(symbol, after2) := firstWord after1 in
  let '(second, after3) := firstWord after2 in
  if String.eqb after3 "= ?" then
    a ← readNumber first; op ← readOperator symbol; b ← readNumber second;
    Some (a, op, b)
  else None.

(** A text without a space. *)
Fixpoint noSpace (s : string) : bool :=
  match s with
  | EmptyString => true
  | String c rest => negb (Ascii.eqb c " ") && noSpace rest
  end.

(** The largest operand a tier uses with an operator: 10 at the easy tier;
    20, or 5 for a product, at the medium tier; 50, or 10 for a product and
    100 for a dividend, at the hard tier. *)
Definition operandLimit (difficulty : Z) (op : Operator) : Z :=
  if difficulty =? 1 then 10
  else if difficulty =? 2 then match op with Times => 5 | _ => 20 end
  else match op with Plus | Minus => 50 | Times => 10 | Divide => 100 end.

(** How far below and above the answer a tier's variants reach. *)
Definition offsetWindow (difficulty : Z) : Z * Z :=
  if difficulty =? 1 then (2, 2) else if difficulty =? 2 then (4, 3) else (5, 4).

(** A hard-tier run: operation type 3 (division), divisor 5, quotient 7,
    then the offsets +1, +2, +3 and a shuffle. *)
Definition hardDivisionRun : list Z :=
  [drawFor 3 4; drawFor 4 10; drawFor 6 10; drawFor 6 10; drawFor 7 10; drawFor 8 10;
   0; 0; 0].

(** Five stored scores and a final score of 20. *)
Definition fullBoard : State := setHighScores [90; 70; 50; 30; 20] endedGame.

(** What holds of the counters all through a session. *)
Definition sessionInvariant (s : State) : Prop :=
  0 ≤ score s ∧ (5 | score s) ∧ 1 ≤ difficulty s ≤ 3 ∧ 0 ≤ correctStreak s ≤ maxStreak s.

End MathMaster.

(** * Balloon Pop *)
Module BalloonPop.

Local Open Scope float_scope.
Set Warnings "-inexact-float".

Inductive BalloonType : Type := NORMAL | BOMB | GOLDEN | SPEED | LIFE.

Global Instance BalloonType_eq_dec : EqDecision BalloonType.
Proof. solve_decision. Defined.

(** [type Balloon]; the fields [color] and [text] only feed the drawing and
    are left out. *)
Record Balloon : Type := mkBalloon {
  x : float; y : float; popped : bool; type : BalloonType; speed : float }.

(** [type PowerUpType = "SPEED" | null] is [option PowerUp]. *)
Inductive PowerUp : Type := SPEED_POWER.

Definition CANVAS_WIDTH : float := 400.
Definition CANVAS_HEIGHT : float := 600.
Definition BALLOON_RADIUS : float := 30.
Definition BALLOON_SPEED : float := 2.
Definition INITIAL_LIVES : Z := 3.

(** The properties of a balloon type ([color] and [text] left out). *)
Record TypeProps : Type := mkTypeProps {
  probability : float; tp_score : Z; tp_speed : float }.

(** [BALLOON_TYPES[type]] *)
Definition typeProps (t : BalloonType) : TypeProps :=
  match t with
  | NORMAL => mkTypeProps 0.55 1 BALLOON_SPEED
  | BOMB => mkTypeProps 0.2 (-5) (BALLOON_SPEED * 1.2)
  | GOLDEN => mkTypeProps 0.1 5 (BALLOON_SPEED * 0.8)
  | SPEED => mkTypeProps 0.1 2 (BALLOON_SPEED * 1.5)
  | LIFE => mkTypeProps 0.05 0 BALLOON_SPEED
  end.

(** [Object.entries(BALLOON_TYPES)]: the types in declaration order. *)
Definition BALLOON_TYPES : list (BalloonType * TypeProps) :=
  map (λ t, (t, typeProps t)) [NORMAL; BOMB; GOLDEN; SPEED; LIFE].

(** The loop of [getRandomBalloonType] over the entries still to visit:
    [Some] type when the loop returns, [None] when it runs off the end. *)
Fixpoint firstBucket (entries : list (BalloonType * TypeProps)) (cumulative rand : float)
  : option BalloonType :=
  match entries with
  | [] => None
  | (t, props) :: rest =>
      let cumulative := cumulative + probability props in
      if rand <=? cumulative then Some t else firstBucket rest cumulative rand
  end.

(** [getRandomBalloonType], given the value [rand] its [Math.random()]
    returns, a binary64 of [0,1); the facts about it are about such draws. *)
Definition getRandomBalloonType (rand : float) : BalloonType :=
  match firstBucket BALLOON_TYPES 0 rand with
  | Some t => t
  | None => NORMAL (* fallback *)
  end.

(** The component's state: the [useRef] cells the game logic works on, and
    the React cells [gameState] and [highScore] it also reads.  The other
    React cells ([score], [lives], [combo], ...) receive a copy of their ref
    cell for rendering and are left out, as is [popEffect]. *)
Record State : Type := mkState {
  gameState : GameState;
  highScore : Z;
  balloonsRef : list Balloon;
  scoreRef : Z;
  livesRef : Z;
  comboRef : Z;
  comboTimerRef : Z;
  activePowerUpRef : option PowerUp;
  powerUpTimerRef : Z;
  gameStateRef : GameState }.

Definition setGameState (v : GameState) (s : State) : State :=
  mkState v (highScore s) (balloonsRef s) (scoreRef s) (livesRef s) (comboRef s)
    (comboTimerRef s) (activePowerUpRef s) (powerUpTimerRef s) (gameStateRef s).
Definition setHighScore (v : Z) (s : State) : State :=
  mkState (gameState s) v (balloonsRef s) (scoreRef s) (livesRef s) (comboRef s)
    (comboTimerRef s) (activePowerUpRef s) (powerUpTimerRef s) (gameStateRef s).
Definition set_balloonsRef (v : list Balloon) (s : State) : State :=
  mkState (gameState s) (highScore s) v (scoreRef s) (livesRef s) (comboRef s)
    (comboTimerRef s) (activePowerUpRef s) (powerUpTimerRef s) (gameStateRef s).
Definition set_scoreRef (v : Z) (s : State) : State :=
  mkState (gameState s) (highScore s) (balloonsRef s) v (livesRef s) (comboRef s)
    (comboTimerRef s) (activePowerUpRef s) (powerUpTimerRef s) (gameStateRef s).
Definition set_livesRef (v : Z) (s : State) : State :=
  mkState (gameState s) (highScore s) (balloonsRef s) (scoreRef s) v (comboRef s)
    (comboTimerRef s) (activePowerUpRef s) (powerUpTimerRef s) (gameStateRef s).
Definition set_comboRef (v : Z) (s : State) : State :=
  mkState (gameState s) (highScore s) (balloonsRef s) (scoreRef s) (livesRef s) v
    (comboTimerRef s) (activePowerUpRef s) (powerUpTimerRef s) (gameStateRef s).
Definition set_comboTimerRef (v : Z) (s : State) : State :=
  mkState (gameState s) (highScore s) (balloonsRef s) (scoreRef s) (livesRef s) (comboRef s)
    v (activePowerUpRef s) (powerUpTimerRef s) (gameStateRef s).
Definition set_activePowerUpRef (v : option PowerUp) (s : State) : State :=
  mkState (gameState s) (highScore s) (balloonsRef s) (scoreRef s) (livesRef s) (comboRef s)
    (comboTimerRef s) v (powerUpTimerRef s) (gameStateRef s).
Definition set_powerUpTimerRef (v : Z) (s : State) : State :=
  mkState (gameState s) (highScore s) (balloonsRef s) (scoreRef s) (livesRef s) (comboRef s)
    (comboTimerRef s) (activePowerUpRef s) v (gameStateRef s).
Definition set_gameStateRef (v : GameState) (s : State) : State :=
  mkState (gameState s) (highScore s) (balloonsRef s) (scoreRef s) (livesRef s) (comboRef s)
    (comboTimerRef s) (activePowerUpRef s) (powerUpTimerRef s) v.

Definition set_y (v : float) (b : Balloon) : Balloon :=
  mkBalloon (x b) v (popped b) (type b) (speed b).
Definition set_popped (v : bool) (b : Balloon) : Balloon :=
  mkBalloon (x b) (y b) v (type b) (speed b).

(** The state of the first render; [stored] is what [parseInt] reads from
    the [balloon-highScore] item. *)
Definition initialState (stored : Z) : State :=
  mkState waiting stored [] 0 INITIAL_LIVES 0 0 None 0 waiting.

(** [spawnBalloon], given the values of its two [Math.random()] calls that
    matter (position and type). *)
Definition spawnBalloon (randX randType : float) (s : State) : State :=
  let x := randX * (CANVAS_WIDTH - BALLOON_RADIUS * 2) + BALLOON_RADIUS in
  let type := getRandomBalloonType randType in
  set_balloonsRef
    (balloonsRef s ++ [mkBalloon x (CANVAS_HEIGHT + BALLOON_RADIUS) false type
                         (tp_speed (typeProps type))])
    s.

(** [balloonsRef.current.forEach(body)]: the body sees the cells and one
    balloon, and may write to both. *)
Fixpoint forEach (body : State → Balloon → State * Balloon) (balloons : list Balloon)
  (s : State) : State * list Balloon :=
  match balloons with
  | [] => (s, [])
  | b :: rest =>
      let '(s1, b1) := body s b in
      let '(s2, rest1) := forEach body rest s1 in
      (s2, b1 :: rest1)
  end.

(** [setGameState("gameOver"); gameStateRef.current = "gameOver"] *)
Definition endGame (s : State) : State :=
  set_gameStateRef gameOver (setGameState gameOver s).

(** The test of [update] for a balloon that escaped (reached top). *)
Definition escaped (b : Balloon) : bool := (y b + BALLOON_RADIUS <? 0) && negb (popped b).

(** [activePowerUpRef.current === "SPEED" ? 0.5 : 1] *)
Definition speedMultiplier (s : State) : float :=
  if activePowerUpRef s is Some SPEED_POWER then 0.5 else 1.

(** [b.y -= b.speed * speedMultiplier] *)
Definition lifted (speedMultiplier : float) (b : Balloon) : Balloon :=
  set_y (y b - speed b * speedMultiplier) b.

(** [update]: the body of "move balloons upward". *)
Definition rise (s : State) (b : Balloon) : State * Balloon :=
  if negb (popped b) then
    (* Apply speed power-up if active *)
    let b := lifted (speedMultiplier s) b in
    (* Check if balloon escaped (reached top) *)
    if escaped b then
      let b := set_popped true b in
      if bool_decide (type b ≠ BOMB) then
        let s := set_livesRef (livesRef s - 1)%Z s in
        if (livesRef s <=? 0)%Z then (endGame s, b) else (s, b)
      else (s, b)
    else (s, b)
  else (s, b).

(** The filter of [update]: off-screen or popped balloons go. *)
Definition kept (b : Balloon) : bool := (0 <? y b + BALLOON_RADIUS) && negb (popped b).

(** [update]: the combo timer and the power-up timer (16 ms per frame). *)
Definition tickTimers (s : State) : State :=
  (* Update combo timer *)
  let s :=
    if (0 <? comboTimerRef s)%Z then
      let s := set_comboTimerRef (comboTimerRef s - 16)%Z s in
      if (comboTimerRef s <=? 0)%Z then set_comboRef 0 s else s
    else s in
  (* Update power-up timer *)
  if (0 <? powerUpTimerRef s)%Z then
    let s := set_powerUpTimerRef (powerUpTimerRef s - 16)%Z s in
    if (powerUpTimerRef s <=? 0)%Z then set_activePowerUpRef None s else s
  else s.

(** [update], the per-frame step. *)
Definition update (s : State) : State :=
  if bool_decide (gameStateRef s ≠ playing) then s
  else
    let s := tickTimers s in
    (* Move balloons upward *)
    let '(s, balloons) := forEach rise (balloonsRef s) s in
    (* Remove off-screen or popped balloons *)
    set_balloonsRef (filter (λ b, kept b = true) balloons) s.

(** [handleBalloonPop(balloon, points)]; [shownHighScore] is the [highScore]
    of the render the handler belongs to. *)
Definition handleBalloonPop (shownHighScore : Z) (balloon : Balloon) (points : Z) (s : State)
  : State * Balloon :=
  let balloon := set_popped true balloon in
  let s := set_scoreRef (scoreRef s + points)%Z s in
  (* Update combo *)
  let s :=
    if (0 <? points)%Z then set_comboTimerRef 2000 (set_comboRef (comboRef s + 1)%Z s)
    else set_comboRef 0 s in
  let s := if (shownHighScore <? scoreRef s)%Z then setHighScore (scoreRef s) s else s in
  (s, balloon).

(** The body shared by [handleCanvasClick] and [handleTouch]: pop the
    balloon when the point is within its radius. *)
Definition popAt (shownHighScore : Z) (pointX pointY : float) (s : State) (b : Balloon)
  : State * Balloon :=
  if negb (popped b) then
    let dx := pointX - x b in
    let dy := pointY - y b in
    if dx * dx + dy * dy <=? BALLOON_RADIUS * BALLOON_RADIUS then
      let points := tp_score (typeProps (type b)) in
      (* Apply combo multiplier to positive points *)
      let points :=
        if (0 <? points)%Z then (points * (if (1 <? comboRef s)%Z then comboRef s else 1))%Z
        else points in
      let '(s, b) := handleBalloonPop shownHighScore b points s in
      (* Handle special balloon effects *)
      match type b with
      | BOMB =>
          let s := set_livesRef (livesRef s - 1)%Z s in
          if (livesRef s <=? 0)%Z then (endGame s, b) else (s, b)
      | LIFE => (set_livesRef (Z.min (livesRef s + 1) 5) s, b)
      | SPEED => (set_powerUpTimerRef 5000 (set_activePowerUpRef (Some SPEED_POWER) s), b)
      | _ => (s, b)
      end
    else (s, b)
  else (s, b).

Definition startGame (s : State) : State :=
  let s := set_balloonsRef [] s in
  let s := set_scoreRef 0 s in
  let s := set_livesRef INITIAL_LIVES s in
  let s := set_comboRef 0 s in
  let s := set_comboTimerRef 0 s in
  let s := set_activePowerUpRef None s in
  let s := set_powerUpTimerRef 0 s in
  set_gameStateRef playing (setGameState playing s).

(** The pops of a click or touch at a point while playing. *)
Definition popBalloons (pointX pointY : float) (s : State) : State :=
  let '(s1, balloons) := forEach (popAt (highScore s) pointX pointY) (balloonsRef s) s in
  set_balloonsRef balloons s1.

Definition handleCanvasClick (mouseX mouseY : float) (s : State) : State :=
  match gameStateRef s with
  | waiting => startGame s
  | gameOver => startGame s
  | playing => popBalloons mouseX mouseY s
  | paused => s
  end.

Definition handleTouch (touchX touchY : float) (s : State) : State :=
  if bool_decide (gameStateRef s ≠ playing) then s
  else popBalloons touchX touchY s.

Definition togglePause (s : State) : State :=
  if bool_decide (gameState s = playing) then
    set_gameStateRef paused (setGameState paused s)
  else if bool_decide (gameState s = paused) then
    set_gameStateRef playing (setGameState playing s)
  else s.

Definition resetGame (s : State) : State :=
  let s := set_gameStateRef waiting (setGameState waiting s) in
  let s := set_balloonsRef [] s in
  let s := set_scoreRef 0 s in
  let s := set_livesRef INITIAL_LIVES s in
  let s := set_comboRef 0 s in
  let s := set_comboTimerRef 0 s in
  let s := set_activePowerUpRef None s in
  set_powerUpTimerRef 0 s.

(** What can happen to a session: the events the component reacts to. *)
Inductive Event : Type :=
  | Click (mouseX mouseY : float)    (* onClick of the canvas *)
  | Touch (touchX touchY : float)    (* onTouchStart of the canvas *)
  | PauseButton                      (* the Pause / Resume button *)
  | ResetButton                      (* the Reset button *)
  | Frame                            (* one turn of gameLoop *)
  | SpawnTimer (randX randType : float). (* the spawn interval fires *)

(** The two buttons are rendered while playing or paused only. *)
Definition controlsShown (s : State) : bool :=
  bool_decide (gameState s = playing) || bool_decide (gameState s = paused).

(** The effect of an event: the handler the component has wired to it (the
    spawn interval runs while [gameState] is ["playing"]). *)
Definition react (e : Event) (s : State) : State :=
  match e with
  | Click mouseX mouseY => handleCanvasClick mouseX mouseY s
  | Touch touchX touchY => handleTouch touchX touchY s
  | PauseButton => if controlsShown s then togglePause s else s
  | ResetButton => if controlsShown s then resetGame s else s
  | Frame => update s
  | SpawnTimer randX randType =>
      if bool_decide (gameState s = playing) then spawnBalloon randX randType s else s
  end.

(** *** The properties the specification states, in its words *)

(** The place of a type in the declaration of [BALLOON_TYPES]. *)
Definition position (t : BalloonType) : nat :=
  match t with NORMAL => 0 | BOMB => 1 | GOLDEN => 2 | SPEED => 3 | LIFE => 4 end%nat.

(** The cumulative probability of a type: the sum, in declaration order, of
    the probabilities up to and including its own. *)
Definition cumulativeProbability (t : BalloonType) : float :=
  foldl (λ sum props, sum + probability props.2) 0 (take (S (position t)) BALLOON_TYPES).


(** A live balloon that the tick, at the given speed multiplier, carries
    across the top boundary. *)
Definition crosses (speedMultiplier : float) (b : Balloon) : bool :=
  negb (popped b) && escaped (lifted speedMultiplier b).

(** A crossing balloon that costs a life: any type but the bomb. *)
Definition costsLife (speedMultiplier : float) (b : Balloon) : bool :=
  crosses speedMultiplier b && bool_decide (type b ≠ BOMB).

(** A balloon after the tick: a popped one is left alone, a live one is
    lifted, and marked popped when this carries it across the boundary. *)
Definition afterTick (speedMultiplier : float) (b : Balloon) : Balloon :=
  if popped b then b
  else if crosses speedMultiplier b then set_popped true (lifted speedMultiplier b)
  else lifted speedMultiplier b.

(** The lives a tick costs: one for each crossing balloon that is no bomb. *)
Definition livesLost (speedMultiplier : float) (balloons : list Balloon) : Z :=
  Z.of_nat (length (filter (λ b, costsLife speedMultiplier b = true) balloons)).

(** The phases an event may lead to from a phase: pause and resume swap
    playing and paused, reset returns to waiting, a click starts or restarts
    the game, a frame or a pop may end it; anything else leaves the phase. *)
Definition successors (e : Event) (phase : GameState) : list GameState :=
  match e, phase with
  | Click _ _, waiting => [playing]
  | Click _ _, gameOver => [playing]
  | Click _ _, playing => [playing; gameOver]
  | Touch _ _, playing => [playing; gameOver]
  | Frame, playing => [playing; gameOver]
  | PauseButton, playing => [paused]
  | PauseButton, paused => [playing]
  | ResetButton, playing => [waiting]
  | ResetButton, paused => [waiting]
  | _, phase => [phase]
  end.

(** The order of the phases the specification has in mind:
    waiting, then playing or paused, then game over. *)
Definition rank (phase : GameState) : nat :=
  match phase with waiting => 0 | playing => 1 | paused => 1 | gameOver => 2 end%nat.

(** The two copies of the phase agree, and the game is on or over. *)
Definition onOrOver (s : State) : Prop :=
  gameState s = gameStateRef s ∧ (gameStateRef s = playing ∨ gameStateRef s = gameOver).

(** One life left and a balloon one pixel under the boundary. *)
Definition lastLife : State :=
  set_livesRef 1
    (set_balloonsRef [mkBalloon 200 (-29) false NORMAL 2; mkBalloon 100 (-29) false BOMB 2.4]
       (startGame (initialState 0))).

(** *** Further properties, in the code's terms *)

(** The hit test of a click or touch: the point is within one radius of the
    balloon's centre. *)
Definition within (pointX pointY : float) (b : Balloon) : bool :=
  (pointX - x b) * (pointX - x b) + (pointY - y b) * (pointY - y b)
  <=? BALLOON_RADIUS * BALLOON_RADIUS.

(** What a click or touch at a point does to a balloon. *)
Definition hitBy (pointX pointY : float) (b : Balloon) : Balloon :=
  if negb (popped b) && within pointX pointY b then set_popped true b else b.

(** The lives are at most 5, and at least 1 while the game is not over; the
    two copies of the phase agree. *)
Definition livesInvariant (s : State) : Prop :=
  gameState s = gameStateRef s ∧ (livesRef s ≤ 5)%Z ∧
  (gameStateRef s ≠ gameOver → (1 ≤ livesRef s)%Z).

(** The high score is not negative and not below the score. *)
Definition scoreInvariant (s : State) : Prop :=
  (0 ≤ highScore s)%Z ∧ (scoreRef s ≤ highScore s)%Z.

(** The invariant of the lives inside the loops of a frame or a click. *)
Definition livesInLoop (s : State) : Prop :=
  gameState s = gameStateRef s ∧ (livesRef s ≤ 5)%Z ∧
  (gameStateRef s = playing ∨ gameStateRef s = gameOver) ∧
  (gameStateRef s = playing → (1 ≤ livesRef s)%Z).

(** The invariant of the scores inside the loop of a click, [shown] being
    the high score of the render. *)
Definition scoresInLoop (shown : Z) (s : State) : Prop :=
  (shown ≤ highScore s)%Z ∧ (scoreRef s ≤ highScore s)%Z.

(** The events that a session outside the playing phase responds to: a
    click while waiting or over, the two buttons while paused. *)
Definition wakes (e : Event) (phase : GameState) : bool :=
  match e, phase with
  | Click _ _, waiting => true
  | Click _ _, gameOver => true
  | PauseButton, paused => true
  | ResetButton, paused => true
  | _, _ => false
  end.

(** A session in which the slow-down has just been collected. *)
Definition slowed : State :=
  set_powerUpTimerRef 5000 (set_activePowerUpRef (Some SPEED_POWER)
    (set_comboTimerRef 2000 (set_comboRef 3 (startGame (initialState 0))))).

(** A session with a bomb and a golden balloon overlapping at (200, 300),
    an ordinary balloon elsewhere, and one life left. *)
Definition crowded : State :=
  set_livesRef 1
    (set_balloonsRef [mkBalloon 200 300 false BOMB 2.4; mkBalloon 210 300 false GOLDEN 1.6;
                      mkBalloon 50 500 false NORMAL 2]
       (startGame (initialState 0))).

End BalloonPop.

(** * Facts about Math Master *)
Module MathMasterFacts.
Import MathMaster.

(** ** The random source *)

Lemma numerator_range (k : Z) : 0 ≤ numerator k < RANDOM_DENOMINATOR.
Proof. unfold numerator. apply Z.mod_pos_bound. reflexivity. Qed.

(** [Math.floor(Math.random() * n)] is one of [0 .. n-1]. *)
Lemma Math_floor_random_range (k n : Z) : 0 < n → 0 ≤ Math_floor_random k n < n.
Proof.
  intros Hn. unfold Math_floor_random.
  pose proof (numerator_range k) as [Hlo Hhi].
  assert (HD : 0 < RANDOM_DENOMINATOR) by reflexivity.
  split.
  - apply Z.div_pos; [nia | exact HD].
  - apply Z.div_lt_upper_bound; [exact HD | nia].
Qed.

(** ** The operands *)

Ltac projections := cbn [num1 num2 operator op_answer]; try reflexivity.

Lemma operands_wellFormed (difficulty : Z) (draws : list Z) (o : Operands) (rest : list Z) :
  generateProblem_operands difficulty draws = Some (o, rest) → wellFormed o.
Proof.
  unfold generateProblem_operands.
  destruct (difficulty =? 1); [|destruct (difficulty =? 2)];
    (destruct draws as [|r0 [|r1 [|r2 draws]]]; try discriminate).
  - assert (H1 : 0 ≤ Math_floor_random r0 10 < 10) by (apply Math_floor_random_range; lia).
    assert (H2 : 0 ≤ Math_floor_random r1 10 < 10) by (apply Math_floor_random_range; lia).
    destruct (Math_random_above_half r2).
    + intros [= <- <-]. apply wf_plus; projections; lia.
    + destruct (Z.ltb_spec (Math_floor_random r0 10 + 1) (Math_floor_random r1 10 + 1));
        intros [= <- <-]; apply wf_minus; projections; lia.
  - destruct (Math_floor_random r0 3 =? 0); [|destruct (Math_floor_random r0 3 =? 1)];
      intros [= <- <-].
    + assert (0 ≤ Math_floor_random r1 20 < 20) by (apply Math_floor_random_range; lia).
      assert (0 ≤ Math_floor_random r2 20 < 20) by (apply Math_floor_random_range; lia).
      apply wf_plus; projections; lia.
    + assert (H1 : 0 ≤ Math_floor_random r1 20 < 20) by (apply Math_floor_random_range; lia).
      assert (0 ≤ Math_floor_random r2 (Math_floor_random r1 20 + 1)
              < Math_floor_random r1 20 + 1) by (apply Math_floor_random_range; lia).
      apply wf_minus; projections; lia.
    + assert (0 ≤ Math_floor_random r1 5 < 5) by (apply Math_floor_random_range; lia).
      assert (0 ≤ Math_floor_random r2 5 < 5) by (apply Math_floor_random_range; lia).
      apply wf_times; projections; lia.
  - destruct (Math_floor_random r0 4 =? 0); [|destruct (Math_floor_random r0 4 =? 1);
      [|destruct (Math_floor_random r0 4 =? 2)]]; intros [= <- <-].
    + assert (0 ≤ Math_floor_random r1 50 < 50) by (apply Math_floor_random_range; lia).
      assert (0 ≤ Math_floor_random r2 50 < 50) by (apply Math_floor_random_range; lia).
      apply wf_plus; projections; lia.
    + assert (H1 : 0 ≤ Math_floor_random r1 50 < 50) by (apply Math_floor_random_range; lia).
      assert (0 ≤ Math_floor_random r2 (Math_floor_random r1 50 + 1)
              < Math_floor_random r1 50 + 1) by (apply Math_floor_random_range; lia).
      apply wf_minus; projections; lia.
    + assert (0 ≤ Math_floor_random r1 10 < 10) by (apply Math_floor_random_range; lia).
      assert (0 ≤ Math_floor_random r2 10 < 10) by (apply Math_floor_random_range; lia).
      apply wf_times; projections; lia.
    + assert (0 ≤ Math_floor_random r1 10 < 10) by (apply Math_floor_random_range; lia).
      assert (0 ≤ Math_floor_random r2 10 < 10) by (apply Math_floor_random_range; lia).
      apply wf_divide; projections; lia.
Qed.

Lemma operands_answer_nonneg (difficulty : Z) (draws : list Z) (o : Operands) (rest : list Z) :
  generateProblem_operands difficulty draws = Some (o, rest) → 0 ≤ op_answer o.
Proof. intros H. destruct (operands_wellFormed _ _ _ _ H); nia. Qed.

(** The operands are produced as soon as three draws are there. *)
Lemma operands_total (difficulty r0 r1 r2 : Z) (rest : list Z) :
  ∃ o, generateProblem_operands difficulty (r0 :: r1 :: r2 :: rest) = Some (o, rest).
Proof.
  unfold generateProblem_operands.
  repeat match goal with
         | |- context [if ?b then _ else _] => destruct b
         | |- context [let '(_, _) := ?p in _] => destruct p
         end; eauto.
Qed.

(** ** The options loop *)

Lemma variantOf_range (difficulty answer r : Z) :
  answer - 5 ≤ variantOf difficulty answer r ≤ answer + 4.
Proof.
  unfold variantOf.
  pose proof (Math_floor_random_range r 5).
  pose proof (Math_floor_random_range r 8).
  pose proof (Math_floor_random_range r 10).
  destruct (difficulty =? 1); [|destruct (difficulty =? 2)]; lia.
Qed.

(** When the loop returns, it returns four distinct choices, the answer
    among them, the others positive. *)
Lemma options_loop_invariant (difficulty answer : Z) (draws : list Z) :
  ∀ (l l' rest : list Z),
    generateProblem_options difficulty answer l draws = Some (l', rest) →
    (length l ≤ 4)%nat → answer ∈ l → NoDup l → Forall (λ c, c ≠ answer → 0 < c) l →
    length l' = 4%nat ∧ answer ∈ l' ∧ NoDup l' ∧ Forall (λ c, c ≠ answer → 0 < c) l'.
Proof.
  induction draws as [|r draws IH]; intros l l' rest Hrun Hlen Hin Hnd Hpos; simpl in Hrun.
  - destruct (Nat.ltb_spec (length l) 4); [discriminate|].
    injection Hrun as <- <-. repeat split; [lia | done..].
  - destruct (Nat.ltb_spec (length l) 4) as [Hlt|Hge].
    + destruct (Z.ltb_spec 0 (variantOf difficulty answer r)) as [Hv|Hv]; simpl in Hrun;
        [|by eapply IH].
      destruct (bool_decide_reflect (variantOf difficulty answer r ∈ l)) as [Hdup|Hnew];
        simpl in Hrun; [by eapply IH|].
      eapply IH; [exact Hrun | | | |].
      * rewrite length_app. simpl. lia.
      * apply elem_of_app. by left.
      * apply NoDup_app. repeat split; [done | | apply NoDup_singleton].
        intros c Hc ->%list_elem_of_singleton. done.
      * apply Forall_app. split; [done|]. apply Forall_singleton. done.
    + injection Hrun as <- <-. repeat split; [lia | done..].
Qed.

(** At the easy tier an answer of [0] or [1] has only two positive
    neighbours within offset 2: the list never gets beyond three entries. *)
Lemma easy_options_stuck (answer : Z) (draws : list Z) :
  answer ≤ 1 →
  ∀ l : list Z, NoDup l → l ⊆ [answer; answer + 1; answer + 2] →
    generateProblem_options 1 answer l draws = None.
Proof.
  intros Hans. induction draws as [|r draws IH]; intros l Hnd Hsub.
  all: assert (Hlen : (length l ≤ 3)%nat)
    by (apply (submseteq_length l [answer; answer + 1; answer + 2]);
        by apply NoDup_submseteq).
  all: simpl; destruct (Nat.ltb_spec (length l) 4); [|lia].
  { done. }
  destruct (Z.ltb_spec 0 (variantOf 1 answer r)) as [Hv|Hv]; simpl; [|by apply IH].
  destruct (bool_decide_reflect (variantOf 1 answer r ∈ l)) as [Hdup|Hnew]; simpl;
    [by apply IH|].
  apply IH.
  - apply NoDup_app. repeat split; [done | | apply NoDup_singleton].
    intros c Hc ->%list_elem_of_singleton. done.
  - intros c [Hc| ->%list_elem_of_singleton]%elem_of_app; [by apply Hsub|].
    clear Hnew. unfold variantOf in Hv |- *. change (1 =? 1) with true in Hv |- *.
    cbv iota in Hv |- *.
    pose proof (Math_floor_random_range r 5 ltac:(lia)) as Hr.
    set (f := Math_floor_random r 5) in *. clearbody f.
    rewrite !elem_of_cons. lia.
Qed.

(** ** The shuffle *)

Lemma swap_Permutation (a : list Z) (i j : nat) : swap a i j ≡ₚ a.
Proof.
  unfold swap. destruct (a !! i) as [x|] eqn:Hi; [|done].
  destruct (a !! j) as [y|] eqn:Hj; [|done].
  by apply Permutation_insert_swap.
Qed.

Lemma shuffleFrom_Permutation (i : nat) :
  ∀ (l draws l' rest : list Z), shuffleFrom i l draws = Some (l', rest) → l' ≡ₚ l.
Proof.
  induction i as [|i IH]; intros l draws l' rest Hrun; simpl in Hrun.
  - by injection Hrun as <- <-.
  - destruct draws as [|r draws]; [discriminate|].
    apply IH in Hrun. rewrite Hrun. apply swap_Permutation.
Qed.

(** The shuffle returns as soon as one draw per position is there. *)
Lemma shuffleFrom_total (i : nat) :
  ∀ (l draws : list Z), (i ≤ length draws)%nat →
    ∃ l', shuffleFrom i l draws = Some (l', drop i draws).
Proof.
  induction i as [|i IH]; intros l draws Hlen; simpl.
  - eexists. by rewrite drop_0.
  - destruct draws as [|r draws]; simpl in *; [lia|].
    apply IH. lia.
Qed.

(** ** The generated challenge *)

(** What [generateProblem] returns is built from its three parts. *)
Lemma generateProblem_parts (difficulty : Z) (draws : list Z) (p : Problem)
    (choices rest : list Z) :
  generateProblem difficulty draws = Some (p, choices, rest) →
  ∃ o draws1 l draws2,
    generateProblem_operands difficulty draws = Some (o, draws1) ∧
    generateProblem_options difficulty (op_answer o) [op_answer o] draws1 = Some (l, draws2) ∧
    generateProblem_shuffle l draws2 = Some (choices, rest) ∧
    p = mkProblem (problemText o) (op_answer o).
Proof.
  unfold generateProblem. intros H.
  destruct (generateProblem_operands difficulty draws) as [[o draws1]|] eqn:H1; [|done].
  simpl in H.
  destruct (generateProblem_options difficulty (op_answer o) [op_answer o] draws1)
    as [[l draws2]|] eqn:H2; [|done].
  simpl in H.
  destruct (generateProblem_shuffle l draws2) as [[l' draws3]|] eqn:H3; [|done].
  simpl in H. injection H as <- <- <-. by exists o, draws1, l, draws2.
Qed.

(** C1, as amended.  Every challenge [generateProblem] returns has the
    correct answer among its choices, exactly 4 choices, all distinct; the
    correct answer is at least 0 and every other choice is strictly
    positive. *)
Theorem generated_challenge_invariant (difficulty : Z) (draws : list Z) (p : Problem)
    (choices rest : list Z) :
  generateProblem difficulty draws = Some (p, choices, rest) →
  generatedInvariant p choices.
Proof.
  intros (o & draws1 & l & draws2 & Hops & Hloop & Hshuffle & ->)%generateProblem_parts.
  apply shuffleFrom_Permutation in Hshuffle.
  pose proof (operands_answer_nonneg _ _ _ _ Hops) as Hnonneg.
  apply options_loop_invariant in Hloop as (Hlen & Hin & Hnd & Hpos).
  - unfold generatedInvariant. cbn [answer]. rewrite Hshuffle. done.
  - simpl. lia.
  - apply list_elem_of_singleton. done.
  - apply NoDup_singleton.
  - apply Forall_singleton. done.
Qed.

Lemma generated_challenge_invariant_witness :
  generateProblem 2 runFiveMinusFive = Some (mkProblem "5 - 5 = ?" 0, [1; 2; 3; 0], []) ∧
  generatedInvariant (mkProblem "5 - 5 = ?" 0) [1; 2; 3; 0].
Proof.
  assert (H : generateProblem 2 runFiveMinusFive
              = Some (mkProblem "5 - 5 = ?" 0, [1; 2; 3; 0], []))
    by (vm_compute; reflexivity).
  split; [exact H | exact (generated_challenge_invariant _ _ _ _ _ H)].
Defined.

(** C1, as stated, fails: the subtraction [5 - 5] is a generated challenge
    whose choices include [0], which is not strictly positive. *)
Lemma generated_choice_not_positive :
  generateProblem 2 runFiveMinusFive = Some (mkProblem "5 - 5 = ?" 0, [1; 2; 3; 0], []) ∧
  ¬ challengeInvariant (mkProblem "5 - 5 = ?" 0) [1; 2; 3; 0].
Proof.
  split; [vm_compute; reflexivity|].
  intros (_ & _ & _ & Hpos).
  rewrite Forall_forall in Hpos.
  specialize (Hpos 0). rewrite !elem_of_cons in Hpos. lia.
Qed.

(** C2.  At the easy tier, when the answer is 0 or 1 (a subtraction of
    equal or adjacent operands), the options loop never reaches four
    choices: whatever the draws, and however many, it is still running. *)
Theorem easy_options_never_complete (answer : Z) (draws : list Z) :
  answer ≤ 1 → generateProblem_options 1 answer [answer] draws = None.
Proof.
  intros Hans. apply easy_options_stuck; [done | apply NoDup_singleton |].
  intros c ->%list_elem_of_singleton. rewrite !elem_of_cons. lia.
Qed.

Lemma easy_options_never_complete_witness :
  0 ≤ 1 ∧
  generateProblem_options 1 0 [0]
    [drawFor 3 5; drawFor 4 5; drawFor 0 5; drawFor 1 5; drawFor 2 5; drawFor 4 5] = None.
Proof. split; [lia | apply easy_options_never_complete; lia]. Defined.

(** The whole of [generateProblem] on such operands: it does not return. *)
Lemma easy_small_answer_hangs (draws : list Z) (o : Operands) (draws1 : list Z) :
  generateProblem_operands 1 draws = Some (o, draws1) → op_answer o ≤ 1 →
  generateProblem 1 draws = None.
Proof.
  intros Hops Hans. unfold generateProblem. rewrite Hops. simpl.
  rewrite easy_options_stuck; [done.. | apply NoDup_singleton |].
  intros c ->%list_elem_of_singleton. rewrite !elem_of_cons. lia.
Qed.

(** [3 - 3] at the easy tier, followed by any draws at all. *)
Lemma easy_three_minus_three_hangs (rest : list Z) :
  generateProblem 1 (drawFor 2 10 :: drawFor 2 10 :: 0 :: rest) = None.
Proof.
  apply (easy_small_answer_hangs _ (mkOperands 3 3 Minus 0) rest); [|simpl; lia].
  vm_compute. reflexivity.
Qed.

(** One round of the loop that accepts its variant, and the exit. *)
Lemma options_accept (difficulty answer r v : Z) (l draws : list Z) :
  variantOf difficulty answer r = v → (length l < 4)%nat → 0 < v → v ∉ l →
  generateProblem_options difficulty answer l (r :: draws)
  = generateProblem_options difficulty answer (l ++ [v]) draws.
Proof.
  intros <- Hlen Hpos Hnew. simpl.
  destruct (Nat.ltb_spec (length l) 4); [|lia].
  destruct (Z.ltb_spec 0 (variantOf difficulty answer r)); [|lia].
  by rewrite bool_decide_eq_false_2.
Qed.

Lemma options_full (difficulty answer : Z) (l draws : list Z) :
  length l = 4%nat → generateProblem_options difficulty answer l draws = Some (l, draws).
Proof.
  intros Hlen. destruct draws; simpl; destruct (Nat.ltb_spec (length l) 4); done || lia.
Qed.

Lemma variantOf_easy (answer r : Z) :
  variantOf 1 answer r = answer + Math_floor_random r 5 - 2.
Proof. reflexivity. Qed.

Lemma variantOf_medium (answer r : Z) :
  variantOf 2 answer r = answer + Math_floor_random r 8 - 4.
Proof. reflexivity. Qed.

Lemma variantOf_hard (difficulty answer r : Z) :
  difficulty ≠ 1 → difficulty ≠ 2 →
  variantOf difficulty answer r = answer + Math_floor_random r 10 - 5.
Proof.
  intros H1 H2. unfold variantOf.
  destruct (Z.eqb_spec difficulty 1); [done|]. by destruct (Z.eqb_spec difficulty 2).
Qed.

Ltac accept v value :=
  erewrite (options_accept _ _ _ v);
  [ simpl app
  | value
  | simpl; lia
  | lia
  | rewrite ?elem_of_cons, ?elem_of_nil; lia ].

(** Everywhere else the loop can complete: from the answer 2 on at the easy
    tier, and for every answer from 0 on at the other tiers, there are draws
    on which it returns. *)
Lemma options_can_complete (difficulty answer : Z) :
  0 ≤ answer → (difficulty = 1 → 2 ≤ answer) →
  ∃ draws l, generateProblem_options difficulty answer [answer] draws = Some (l, []).
Proof.
  intros Hnonneg Heasy.
  assert (E15 : Math_floor_random (drawFor 1 5) 5 = 1) by (vm_compute; reflexivity).
  assert (E35 : Math_floor_random (drawFor 3 5) 5 = 3) by (vm_compute; reflexivity).
  assert (E45 : Math_floor_random (drawFor 4 5) 5 = 4) by (vm_compute; reflexivity).
  assert (E58 : Math_floor_random (drawFor 5 8) 8 = 5) by (vm_compute; reflexivity).
  assert (E68 : Math_floor_random (drawFor 6 8) 8 = 6) by (vm_compute; reflexivity).
  assert (E78 : Math_floor_random (drawFor 7 8) 8 = 7) by (vm_compute; reflexivity).
  assert (E6 : Math_floor_random (drawFor 6 10) 10 = 6) by (vm_compute; reflexivity).
  assert (E7 : Math_floor_random (drawFor 7 10) 10 = 7) by (vm_compute; reflexivity).
  assert (E8 : Math_floor_random (drawFor 8 10) 10 = 8) by (vm_compute; reflexivity).
  destruct (decide (difficulty = 1)) as [->|Hne1];
    [|destruct (decide (difficulty = 2)) as [->|Hne2]].
  - specialize (Heasy eq_refl).
    exists [drawFor 1 5; drawFor 3 5; drawFor 4 5]. eexists.
    accept (answer - 1) ltac:(rewrite variantOf_easy, E15; lia).
    accept (answer + 1) ltac:(rewrite variantOf_easy, E35; lia).
    accept (answer + 2) ltac:(rewrite variantOf_easy, E45; lia).
    by apply options_full.
  - exists [drawFor 5 8; drawFor 6 8; drawFor 7 8]. eexists.
    accept (answer + 1) ltac:(rewrite variantOf_medium, E58; lia).
    accept (answer + 2) ltac:(rewrite variantOf_medium, E68; lia).
    accept (answer + 3) ltac:(rewrite variantOf_medium, E78; lia).
    by apply options_full.
  - exists [drawFor 6 10; drawFor 7 10; drawFor 8 10]. eexists.
    accept (answer + 1) ltac:(rewrite variantOf_hard, E6 by done; lia).
    accept (answer + 2) ltac:(rewrite variantOf_hard, E7 by done; lia).
    accept (answer + 3) ltac:(rewrite variantOf_hard, E8 by done; lia).
    by apply options_full.
Qed.

(** C6.  A division problem is built as [num1 = num2 * answer] with a
    positive divisor: the division is exact and gives the answer. *)
Theorem division_is_exact (difficulty : Z) (draws : list Z) (o : Operands) (rest : list Z) :
  generateProblem_operands difficulty draws = Some (o, rest) → operator o = Divide →
  num1 o = num2 o * op_answer o ∧ 0 < num2 o ∧
  num1 o `mod` num2 o = 0 ∧ num1 o `div` num2 o = op_answer o.
Proof.
  intros Hops Hdiv.
  destruct (operands_wellFormed _ _ _ _ Hops) as [Hop|Hop|Hop|_ Hnum2 Hans Hnum1];
    try congruence.
  rewrite Hnum1, (Z.mul_comm (num2 o)).
  repeat split; [lia | apply Z.mod_mul; lia | apply Z.div_mul; lia].
Qed.

(** A hard-tier run: operation type 3 (division), divisor 5, quotient 7. *)
Lemma division_is_exact_witness :
  generateProblem_operands 3 [drawFor 3 4; drawFor 4 10; drawFor 6 10]
    = Some (mkOperands 35 5 Divide 7, []) ∧
  35 = 5 * 7 ∧ 0 < 5 ∧ 35 `mod` 5 = 0 ∧ 35 `div` 5 = 7.
Proof.
  assert (H : generateProblem_operands 3 [drawFor 3 4; drawFor 4 10; drawFor 6 10]
              = Some (mkOperands 35 5 Divide 7, []))
    by (vm_compute; reflexivity).
  split; [exact H | exact (division_is_exact _ _ _ _ H eq_refl)].
Defined.

(** At the hard tier the fourth operation type always yields a division,
    for every draw of divisor and quotient. *)
Lemma hard_division_produced (r0 r1 r2 : Z) (rest : list Z) :
  Math_floor_random r0 4 = 3 →
  generateProblem_operands 3 (r0 :: r1 :: r2 :: rest)
  = Some (mkOperands ((Math_floor_random r1 10 + 1) * (Math_floor_random r2 10 + 1))
            (Math_floor_random r1 10 + 1) Divide (Math_floor_random r2 10 + 1), rest).
Proof. intros H. unfold generateProblem_operands. rewrite H. reflexivity. Qed.

(** ** The per-frame step *)

Lemma frames_add {S : Type} (step : S → S) (n m : nat) (s : S) :
  frames step (n + m) s = frames step m (frames step n s).
Proof. revert s. induction n as [|n IH]; intros s; simpl; [done | apply IH]. Qed.

Lemma frames_fixed {S : Type} (step : S → S) (n : nat) (s : S) :
  step s = s → frames step n s = s.
Proof. intros H. induction n as [|n IH]; simpl; [done | by rewrite H]. Qed.

(** Outside the playing phase [update] does nothing. *)
Lemma update_idle (s : State) : gameStateRef s ≠ playing → update s = s.
Proof. intros H. unfold update. by rewrite bool_decide_eq_true_2. Qed.

(** C3, as amended.  In the playing phase a tick takes the fixed frame time
    [1 / 60] off the internal timer (no [dt], no clamp), shows its ceiling,
    and ends the game on the tick at which the timer is at or below zero;
    from then on [update] changes nothing.  A session started with 60
    seconds is still playing after 60 and after 3600 ticks and is over
    after 3601, with a negative internal timer and a displayed 0. *)
Theorem update_counts_down (s : State) :
  (gameStateRef s ≠ playing → update s = s) ∧
  (gameStateRef s = playing →
     timeLeftRef (update s) = (timeLeftRef s - FRAME)%float ∧
     timeLeft (update s) = Math_ceil (timeLeftRef s - FRAME) ∧
     gameStateRef (update s)
       = (if (timeLeftRef s - FRAME <=? 0)%float then gameOver else playing) ∧
     gameState (update s)
       = (if (timeLeftRef s - FRAME <=? 0)%float then gameOver else gameState s)) ∧
  gameStateRef (frames update 60 (startGame s)) = playing ∧
  gameStateRef (frames update 3600 (startGame s)) = playing ∧
  gameStateRef (frames update 3601 (startGame s)) = gameOver ∧
  gameState (frames update 3601 (startGame s)) = gameOver ∧
  (timeLeftRef (frames update 3601 (startGame s)) <? 0)%float = true ∧
  timeLeft (frames update 3601 (startGame s)) = 0 ∧
  ∀ n : nat, frames update (3601 + n) (startGame s) = frames update 3601 (startGame s).
Proof.
  split; [apply update_idle|]. split.
  { intros Hplaying. unfold update.
    rewrite bool_decide_eq_false_2 by (rewrite Hplaying; auto).
    cbn [timeLeftRef set_timeLeftRef setTimeLeft].
    destruct (timeLeftRef s - FRAME <=? 0)%float; [done|].
    cbn [score difficulty set_timeLeftRef setTimeLeft].
    destruct ((30 <=? score s) && (difficulty s <? 3));
      [|destruct ((15 <=? score s) && (difficulty s <? 2))]; cbn; by rewrite Hplaying. }
  assert (Hover : gameStateRef (frames update 3601 (startGame s)) = gameOver)
    by (vm_compute; reflexivity).
  do 6 (split; [vm_compute; reflexivity|]).
  intros n. rewrite frames_add. apply frames_fixed, update_idle. by rewrite Hover.
Qed.

(** The first tick of a fresh session. *)
Lemma update_counts_down_witness :
  timeLeftRef (update (startGame (initialState None))) = (60 - FRAME)%float ∧
  timeLeft (update (startGame (initialState None))) = 60 ∧
  gameStateRef (update (startGame (initialState None))) = playing.
Proof.
  destruct (update_counts_down (startGame (initialState None)))
    as (_ & Hstep & _).
  destruct (Hstep eq_refl) as (Href & Hshown & Hphase & _).
  split; [|split]; [rewrite Href | rewrite Hshown | rewrite Hphase]; vm_compute; reflexivity.
Defined.

(** C3, as stated, fails: a session started with 60 seconds is still in the
    playing phase after 60 ticks; a tick is a sixtieth of a second. *)
Lemma sixty_ticks_still_playing :
  timeLeft (startGame (initialState None)) = 60 ∧
  gameStateRef (startGame (initialState None)) = playing ∧
  gameState (frames update 60 (startGame (initialState None))) = playing ∧
  gameState (frames update 60 (startGame (initialState None))) ≠ gameOver.
Proof. do 3 (split; [vm_compute; reflexivity|]). vm_compute. discriminate. Qed.

Lemma update_difficulty_le (s : State) : difficulty s ≤ difficulty (update s).
Proof.
  unfold update. destruct (bool_decide (gameStateRef s ≠ playing)); [lia|].
  cbn [timeLeftRef set_timeLeftRef setTimeLeft score difficulty].
  destruct (timeLeftRef s - FRAME <=? 0)%float; [cbn; lia|].
  destruct (Z.leb_spec 30 (score s)), (Z.ltb_spec (difficulty s) 3),
    (Z.leb_spec 15 (score s)), (Z.ltb_spec (difficulty s) 2); cbn; lia.
Qed.

(** C7.  [update] never lowers the difficulty, and while the game goes on
    it sets it from the score: 3 from a score of 30, 2 from a score of 15,
    never below the tier held. *)
Theorem difficulty_never_decreases (s : State) :
  difficulty s ≤ difficulty (update s) ∧
  (gameStateRef s = playing → (timeLeftRef s - FRAME <=? 0)%float = false →
   difficulty (update s) = tierFromScore (score s) (difficulty s)).
Proof.
  unfold update, tierFromScore.
  destruct (bool_decide (gameStateRef s ≠ playing)) eqn:Hphase.
  { split; [lia|]. intros Hplaying. apply bool_decide_eq_true_1 in Hphase. done. }
  cbn [timeLeftRef set_timeLeftRef setTimeLeft score difficulty].
  destruct (timeLeftRef s - FRAME <=? 0)%float.
  { split; [cbn; lia | discriminate]. }
  destruct (Z.leb_spec 30 (score s)), (Z.ltb_spec (difficulty s) 3),
    (Z.leb_spec 15 (score s)), (Z.ltb_spec (difficulty s) 2); cbn; split; intros; lia.
Qed.

(** A playing session with 15 points at tier 1 moves to tier 2. *)
Lemma difficulty_never_decreases_witness :
  difficulty (update (setScore 15 (startGame (initialState None)))) = 2.
Proof.
  destruct (difficulty_never_decreases (setScore 15 (startGame (initialState None))))
    as [_ H].
  rewrite H; [reflexivity | reflexivity | vm_compute; reflexivity].
Defined.

Lemma runGenerateProblem_difficulty (draws rest : list Z) (s s' : State) :
  runGenerateProblem draws s = Some (s', rest) → difficulty s' = difficulty s.
Proof.
  unfold runGenerateProblem. intros H.
  destruct (generateProblem (difficulty s) draws) as [[[p l] d]|]; [|done].
  simpl in H. by injection H as <- <-.
Qed.

(** The feedback timeout only hides the feedback and replaces the problem
    and the options, by ones generated at the difficulty of its render. *)
Lemma feedbackTimeout_frame (renderDifficulty : Z) (draws rest : list Z) (s s' : State) :
  feedbackTimeout renderDifficulty draws s = Some (s', rest) →
  ∃ p l, generateProblem renderDifficulty draws = Some (p, l, rest) ∧
         s' = setOptions l (setCurrentProblem (Some p)
                (setFeedback (mkFeedback false false "") s)).
Proof.
  unfold feedbackTimeout. intros H.
  destruct (generateProblem renderDifficulty draws) as [[[p l] d]|]; [|done].
  simpl in H. injection H as <- <-. by exists p, l.
Qed.

(** Within a session the difficulty never goes down. *)
Lemma session_difficulty_monotone (s s' : State) :
  rtc sessionStep s s' → difficulty s ≤ difficulty s'.
Proof.
  induction 1 as [|s1 s2 s3 Hstep _ IH]; [lia|].
  etrans; [|exact IH]. clear IH.
  destruct Hstep as [|r selectedAnswer|draws rest s' Hgen|d draws rest s' Hgen| | | | |].
  - apply update_difficulty_le.
  - unfold checkAnswer. destruct (currentProblem s1) as [p|]; [|lia].
    destruct (selectedAnswer =? answer p); [|cbn; lia].
    destruct (maxStreak s1 <? correctStreak s1 + 1); cbn; lia.
  - rewrite (runGenerateProblem_difficulty _ _ _ _ Hgen). lia.
  - apply feedbackTimeout_frame in Hgen as (p & l & _ & ->). cbn. lia.
  - unfold saveHighScore. destruct (_ && _); cbn; lia.
  - unfold loadHighScores. destruct (localStorage s1); cbn; lia.
  - cbn. lia.
  - cbn. lia.
  - cbn. lia.
Qed.

(** ** Answers and streaks *)

(** C8.  A wrong selection sets the streak to 0 and leaves the best streak
    as it is; so a right selection followed by a wrong one ends with streak
    0 and the best streak at the peak the right one set. *)
Theorem wrong_answer_resets_streak (s : State) (p : Problem) (r r' right wrong : Z) :
  currentProblem s = Some p → right = answer p → wrong ≠ answer p →
  (correctStreak (checkAnswer r wrong s) = 0 ∧
   maxStreak (checkAnswer r wrong s) = maxStreak s) ∧
  correctStreak (checkAnswer r right s) = correctStreak s + 1 ∧
  maxStreak (checkAnswer r right s) = Z.max (maxStreak s) (correctStreak s + 1) ∧
  correctStreak (checkAnswer r' wrong (checkAnswer r right s)) = 0 ∧
  maxStreak (checkAnswer r' wrong (checkAnswer r right s))
    = maxStreak (checkAnswer r right s).
Proof.
  intros Hp -> Hwrong.
  assert (Hw : ∀ r0 s0, currentProblem s0 = Some p →
            checkAnswer r0 wrong s0
            = setFeedback (mkFeedback true false "Try again!") (setCorrectStreak 0 s0)).
  { intros r0 s0 H0. unfold checkAnswer. rewrite H0.
    destruct (Z.eqb_spec wrong (answer p)); done. }
  assert (Hr : currentProblem (checkAnswer r (answer p) s) = Some p
               ∧ correctStreak (checkAnswer r (answer p) s) = correctStreak s + 1
               ∧ maxStreak (checkAnswer r (answer p) s)
                 = Z.max (maxStreak s) (correctStreak s + 1)).
  { unfold checkAnswer. rewrite Hp, Z.eqb_refl.
    destruct (Z.ltb_spec (maxStreak s) (correctStreak s + 1)); cbn;
      repeat split; try done; lia. }
  destruct Hr as (Hp' & Hstreak & Hmax).
  rewrite (Hw r s Hp), (Hw r' _ Hp'). done.
Qed.

Lemma wrong_answer_resets_streak_witness :
  correctStreak (checkAnswer 7 3 (checkAnswer 9 0 midGame)) = 0 ∧
  maxStreak (checkAnswer 7 3 (checkAnswer 9 0 midGame)) = 4.
Proof.
  destruct (wrong_answer_resets_streak midGame (mkProblem "5 - 5 = ?" 0) 9 7 0 3)
    as (_ & _ & Hmax & Hzero & Hkept); [reflexivity | reflexivity | cbn; lia |].
  split; [exact Hzero | by rewrite Hkept, Hmax].
Defined.

(** ** High scores *)

Global Instance descending_transitive : Transitive descending.
Proof. intros a b c. unfold descending. lia. Qed.

Global Instance descending_total : Total descending.
Proof. intros a b. unfold descending. lia. Qed.

Lemma recordScore_sorted (scores : list Z) (score : Z) :
  StronglySorted descending (recordScore scores score).
Proof.
  unfold recordScore, sortDescending.
  apply (StronglySorted_app_1_l _ _ (drop 5 (merge_sort descending (scores ++ [score])))).
  rewrite take_drop. apply StronglySorted_merge_sort; apply _.
Qed.

Lemma recordScore_length (scores : list Z) (score : Z) :
  (length (recordScore scores score) ≤ 5)%nat.
Proof. unfold recordScore. rewrite length_take. lia. Qed.

Lemma recordScore_submseteq (scores : list Z) (score : Z) :
  recordScore scores score ⊆+ scores ++ [score].
Proof.
  unfold recordScore, sortDescending.
  etrans; [apply sublist_submseteq, sublist_take|].
  by rewrite merge_sort_Permutation.
Qed.

Lemma recordScore_keeps_all (scores : list Z) (score : Z) :
  (length scores < 5)%nat → recordScore scores score ≡ₚ scores ++ [score].
Proof.
  intros Hlen. unfold recordScore, sortDescending.
  rewrite take_ge; [apply merge_sort_Permutation|].
  rewrite merge_sort_Permutation, length_app. simpl. lia.
Qed.

(** C9, as amended.  A run of the save effect in the game-over phase with a
    positive score stores, in the state and in [localStorage], the old list
    with the score inserted, sorted descending and cut to the top 5: a
    descending list of at most 5 entries, drawn from the old entries and
    the score, and holding all of them when there were fewer than 5.  In
    any other phase, or with a score of 0, the effect stores nothing. *)
Theorem saveHighScore_records (s : State) :
  (gameState s = gameOver → 0 < score s →
   highScores (saveHighScore s) = recordScore (highScores s) (score s) ∧
   localStorage (saveHighScore s) = Some (highScores (saveHighScore s)) ∧
   StronglySorted descending (highScores (saveHighScore s)) ∧
   (length (highScores (saveHighScore s)) ≤ 5)%nat ∧
   highScores (saveHighScore s) ⊆+ highScores s ++ [score s] ∧
   ((length (highScores s) < 5)%nat →
    highScores (saveHighScore s) ≡ₚ highScores s ++ [score s])) ∧
  (gameState s ≠ gameOver ∨ score s ≤ 0 → saveHighScore s = s).
Proof.
  unfold saveHighScore. split.
  - intros Hover Hpos.
    rewrite bool_decide_eq_true_2 by done.
    destruct (Z.ltb_spec 0 (score s)); [|lia].
    cbn [andb highScores localStorage set_localStorage setHighScores].
    fold (recordScore (highScores s) (score s)).
    repeat split.
    + apply recordScore_sorted.
    + apply recordScore_length.
    + apply recordScore_submseteq.
    + apply recordScore_keeps_all.
  - intros [Hphase|Hscore].
    + by rewrite bool_decide_eq_false_2.
    + destruct (Z.ltb_spec 0 (score s)); [lia|]. by rewrite andb_false_r.
Qed.

Lemma saveHighScore_records_witness :
  gameState endedGame = gameOver ∧ 0 < score endedGame ∧
  highScores (saveHighScore endedGame) = [30; 20; 10] ∧
  localStorage (saveHighScore endedGame) = Some [30; 20; 10].
Proof.
  assert (Hover : gameState endedGame = gameOver) by (vm_compute; reflexivity).
  assert (Hpos : 0 < score endedGame) by (vm_compute; reflexivity).
  destruct (saveHighScore_records endedGame) as [Hsave _].
  destruct (Hsave Hover Hpos) as (Hlist & Hstored & _).
  split; [exact Hover|]. split; [exact Hpos|].
  split; [rewrite Hlist | rewrite Hstored, Hlist]; vm_compute; reflexivity.
Defined.

(** C9, as stated, fails: a session that runs out of time with no point
    scored enters the game-over phase and its score is not recorded, where
    insert, sort and truncate would store [[0]]. *)
Lemma zero_score_not_recorded :
  gameState (frames update 3601 (startGame (initialState None))) = gameOver ∧
  score (frames update 3601 (startGame (initialState None))) = 0 ∧
  highScores (saveHighScore (frames update 3601 (startGame (initialState None)))) = [] ∧
  localStorage (saveHighScore (frames update 3601 (startGame (initialState None)))) = None ∧
  recordScore (highScores (frames update 3601 (startGame (initialState None)))) 0 = [0].
Proof. do 4 (split; [vm_compute; reflexivity|]). vm_compute. reflexivity. Qed.

(** The effect lists [highScores] among its dependencies and replaces it:
    a second run inserts the same score again. *)
Lemma saveHighScore_again :
  highScores (saveHighScore (saveHighScore endedGame)) = [30; 20; 20; 10].
Proof. vm_compute. reflexivity. Qed.

(** ** More on the generator *)

(** The operands stay within the limits of the tier, and the tier picks
    the operators. *)
Lemma operands_in_tier (difficulty : Z) (draws : list Z) (o : Operands) (rest : list Z) :
  generateProblem_operands difficulty draws = Some (o, rest) →
  1 ≤ num1 o ≤ operandLimit difficulty (operator o) ∧
  1 ≤ num2 o ≤ operandLimit difficulty (operator o) ∧
  (difficulty = 1 → operator o = Plus ∨ operator o = Minus) ∧
  (difficulty = 2 → operator o ≠ Divide).
Proof.
  unfold generateProblem_operands, operandLimit.
  destruct (Z.eqb_spec difficulty 1) as [->|H1];
    [|destruct (Z.eqb_spec difficulty 2) as [->|H2]];
    (destruct draws as [|r0 [|r1 [|r2 draws]]]; try discriminate).
  - assert (0 ≤ Math_floor_random r0 10 < 10) by (apply Math_floor_random_range; lia).
    assert (0 ≤ Math_floor_random r1 10 < 10) by (apply Math_floor_random_range; lia).
    destruct (Math_random_above_half r2).
    + intros [= <- <-]. projections. repeat split; auto; lia.
    + destruct (Z.ltb_spec (Math_floor_random r0 10 + 1) (Math_floor_random r1 10 + 1));
        intros [= <- <-]; projections; repeat split; auto; lia.
  - destruct (Math_floor_random r0 3 =? 0); [|destruct (Math_floor_random r0 3 =? 1)];
      intros [= <- <-]; projections.
    + assert (0 ≤ Math_floor_random r1 20 < 20) by (apply Math_floor_random_range; lia).
      assert (0 ≤ Math_floor_random r2 20 < 20) by (apply Math_floor_random_range; lia).
      repeat split; try lia; discriminate.
    + assert (0 ≤ Math_floor_random r1 20 < 20) by (apply Math_floor_random_range; lia).
      assert (0 ≤ Math_floor_random r2 (Math_floor_random r1 20 + 1)
              < Math_floor_random r1 20 + 1) by (apply Math_floor_random_range; lia).
      repeat split; try lia; discriminate.
    + assert (0 ≤ Math_floor_random r1 5 < 5) by (apply Math_floor_random_range; lia).
      assert (0 ≤ Math_floor_random r2 5 < 5) by (apply Math_floor_random_range; lia).
      repeat split; try lia; discriminate.
  - destruct (Math_floor_random r0 4 =? 0); [|destruct (Math_floor_random r0 4 =? 1);
      [|destruct (Math_floor_random r0 4 =? 2)]]; intros [= <- <-]; projections.
    + assert (0 ≤ Math_floor_random r1 50 < 50) by (apply Math_floor_random_range; lia).
      assert (0 ≤ Math_floor_random r2 50 < 50) by (apply Math_floor_random_range; lia).
      repeat split; lia.
    + assert (0 ≤ Math_floor_random r1 50 < 50) by (apply Math_floor_random_range; lia).
      assert (0 ≤ Math_floor_random r2 (Math_floor_random r1 50 + 1)
              < Math_floor_random r1 50 + 1) by (apply Math_floor_random_range; lia).
      repeat split; lia.
    + assert (0 ≤ Math_floor_random r1 10 < 10) by (apply Math_floor_random_range; lia).
      assert (0 ≤ Math_floor_random r2 10 < 10) by (apply Math_floor_random_range; lia).
      repeat split; lia.
    + assert (0 ≤ Math_floor_random r1 10 < 10) by (apply Math_floor_random_range; lia).
      assert (0 ≤ Math_floor_random r2 10 < 10) by (apply Math_floor_random_range; lia).
      repeat split; nia.
Qed.

(** Reading what the template writes. *)
Lemma firstWord_append (word after : string) :
  noSpace word = true → firstWord (word ++ String " " after)%string = (word, after).
Proof.
  induction word as [|c word IH]; simpl; [done|].
  intros [Hc Hword]%andb_true_iff. apply negb_true_iff in Hc. rewrite Hc.
  by rewrite (IH Hword).
Qed.

Lemma noSpace_uint (d : Decimal.uint) : noSpace (NilEmpty.string_of_uint d) = true.
Proof. induction d; simpl; auto. Qed.

Lemma noSpace_numberText (n : Z) : noSpace (numberText n) = true.
Proof.
  unfold numberText, NilZero.string_of_int, NilZero.string_of_uint.
  destruct (Z.to_int n) as [d|d]; destruct d; simpl; auto using noSpace_uint.
Qed.

Lemma readNumber_numberText (n : Z) : readNumber (numberText n) = Some n.
Proof.
  unfold readNumber, numberText. rewrite NilZero.isi.
  - simpl. f_equal. apply DecimalZ.of_to.
  - destruct n; simpl; [done| |done]. intros [= H]. by apply DecimalPos.Unsigned.to_uint_nonnil in H.
  - destruct n; simpl; [done|done|]. intros [= H]. by apply DecimalPos.Unsigned.to_uint_nonnil in H.
Qed.

Lemma readProblem_problemText (o : Operands) :
  readProblem (problemText o) = Some (num1 o, operator o, num2 o).
Proof.
  unfold readProblem, problemText.
  change (" = ?")%string with (String " " "= ?").
  change (" " ++ ?x)%string with (String " " x).
  rewrite firstWord_append by apply noSpace_numberText.
  change (" " ++ ?x)%string with (String " " x).
  rewrite firstWord_append by (by destruct (operator o)).
  rewrite firstWord_append by apply noSpace_numberText.
  rewrite !readNumber_numberText. by destruct (operator o).
Qed.

(** X1.  The answer stored with a generated problem is the value of the
    problem shown: read back from the text, the problem is [a op b = ?] with
    operands of at least 1, and the answer stored is [a op b], never
    negative, a division being exact. *)
Theorem answer_is_value_of_problem (difficulty : Z) (draws : list Z) (p : Problem)
    (choices rest : list Z) :
  generateProblem difficulty draws = Some (p, choices, rest) →
  ∃ (a : Z) (op : Operator) (b : Z),
    readProblem (text p) = Some (a, op, b) ∧
    answer p = evalOperator op a b ∧
    0 ≤ answer p ∧ 1 ≤ a ∧ 1 ≤ b ∧
    (op = Divide → a `mod` b = 0).
Proof.
  intros (o & draws1 & l & draws2 & Hops & _ & _ & ->)%generateProblem_parts.
  exists (num1 o), (operator o), (num2 o). cbn [text answer].
  split; [apply readProblem_problemText|].
  destruct (operands_wellFormed _ _ _ _ Hops)
    as [Hop Hn1 Hn2 Hans|Hop Hn Hans|Hop Hn1 Hn2 Hans|Hop Hn2 Hans Hn1];
    rewrite Hop; cbn [evalOperator].
  - repeat split; try lia; discriminate.
  - repeat split; try lia; discriminate.
  - repeat split; try nia; discriminate.
  - split; [rewrite Hn1, (Z.mul_comm (num2 o)), Z.div_mul; lia|].
    split; [lia|]. split; [nia|]. split; [lia|].
    intros _. rewrite Hn1, (Z.mul_comm (num2 o)). apply Z.mod_mul. lia.
Qed.

(** A hard-tier division, divisor 5 and quotient 7: the text reads 35, the
    quotient sign, 5. *)
Lemma answer_is_value_of_problem_witness :
  generateProblem 3 hardDivisionRun
    = Some (mkProblem (problemText (mkOperands 35 5 Divide 7)) 7, [8; 9; 10; 7], []) ∧
  ∃ (a : Z) (op : Operator) (b : Z),
    readProblem (problemText (mkOperands 35 5 Divide 7)) = Some (a, op, b) ∧
    7 = evalOperator op a b ∧ 0 ≤ 7 ∧ 1 ≤ a ∧ 1 ≤ b ∧ (op = Divide → a `mod` b = 0).
Proof.
  assert (H : generateProblem 3 hardDivisionRun
              = Some (mkProblem (problemText (mkOperands 35 5 Divide 7)) 7, [8; 9; 10; 7], []))
    by (vm_compute; reflexivity).
  split; [exact H|]. exact (answer_is_value_of_problem _ _ _ _ _ H).
Defined.

(** X2.  The operands of a problem are between 1 and the limit of the tier
    for the operator; the easy tier only adds and subtracts, and the medium
    tier never divides. *)
Theorem operands_within_tier (difficulty : Z) (draws : list Z) (o : Operands)
    (rest : list Z) :
  generateProblem_operands difficulty draws = Some (o, rest) →
  1 ≤ num1 o ≤ operandLimit difficulty (operator o) ∧
  1 ≤ num2 o ≤ operandLimit difficulty (operator o) ∧
  (difficulty = 1 → operator o = Plus ∨ operator o = Minus) ∧
  (difficulty = 2 → operator o ≠ Divide) ∧
  (operator o = Minus → num2 o ≤ num1 o).
Proof.
  intros Hops. destruct (operands_in_tier _ _ _ _ Hops) as (Hn1 & Hn2 & Heasy & Hmedium).
  repeat split; try done; try lia.
  intros Hminus. destruct (operands_wellFormed _ _ _ _ Hops); try congruence. lia.
Qed.

Lemma operands_within_tier_witness :
  generateProblem_operands 3 [drawFor 3 4; drawFor 4 10; drawFor 6 10]
    = Some (mkOperands 35 5 Divide 7, []) ∧
  1 ≤ 35 ≤ 100 ∧ 1 ≤ 5 ≤ 100.
Proof.
  assert (H : generateProblem_operands 3 [drawFor 3 4; drawFor 4 10; drawFor 6 10]
              = Some (mkOperands 35 5 Divide 7, []))
    by (vm_compute; reflexivity).
  destruct (operands_within_tier _ _ _ _ H) as (Hn1 & Hn2 & _).
  split; [exact H|]. split; [exact Hn1 | exact Hn2].
Defined.

(** Whatever holds of the answer and of every variant holds of every choice
    the loop returns. *)
Lemma options_loop_Forall (P : Z → Prop) (difficulty answer : Z) :
  (∀ r, P (variantOf difficulty answer r)) →
  ∀ (draws l l' rest : list Z),
    generateProblem_options difficulty answer l draws = Some (l', rest) →
    Forall P l → Forall P l'.
Proof.
  intros Hvariant. induction draws as [|r draws IH]; intros l l' rest Hrun Hl; simpl in Hrun.
  - destruct (length l <? 4)%nat; [discriminate|]. by injection Hrun as <- <-.
  - destruct (length l <? 4)%nat; [|by injection Hrun as <- <-].
    destruct ((0 <? variantOf difficulty answer r)
              && negb (bool_decide (variantOf difficulty answer r ∈ l)));
      eapply IH; try exact Hrun; try done.
    apply Forall_app. split; [done|]. by apply Forall_singleton.
Qed.

Lemma variantOf_window (difficulty answer r : Z) :
  answer - (offsetWindow difficulty).1 ≤ variantOf difficulty answer r
  ≤ answer + (offsetWindow difficulty).2.
Proof.
  unfold variantOf, offsetWindow.
  pose proof (Math_floor_random_range r 5).
  pose proof (Math_floor_random_range r 8).
  pose proof (Math_floor_random_range r 10).
  destruct (difficulty =? 1); [|destruct (difficulty =? 2)]; simpl; lia.
Qed.

(** X3.  Every choice of a generated challenge lies in the tier's window
    around the answer: within 2 at the easy tier, from 4 below to 3 above at
    the medium tier, from 5 below to 4 above at the hard tier. *)
Theorem choices_within_window (difficulty : Z) (draws : list Z) (p : Problem)
    (choices rest : list Z) :
  generateProblem difficulty draws = Some (p, choices, rest) →
  Forall (λ c, answer p - (offsetWindow difficulty).1 ≤ c
               ≤ answer p + (offsetWindow difficulty).2) choices.
Proof.
  intros (o & draws1 & l & draws2 & _ & Hloop & Hshuffle & ->)%generateProblem_parts.
  apply shuffleFrom_Permutation in Hshuffle. rewrite Hshuffle. cbn [answer].
  eapply (options_loop_Forall _ difficulty (op_answer o)); [|exact Hloop|].
  - apply variantOf_window.
  - apply Forall_singleton. unfold offsetWindow.
    destruct (difficulty =? 1); [|destruct (difficulty =? 2)]; simpl; lia.
Qed.

Lemma choices_within_window_witness :
  Forall (λ c, 0 - 4 ≤ c ≤ 0 + 3) [1; 2; 3; 0].
Proof.
  assert (H : generateProblem 2 runFiveMinusFive
              = Some (mkProblem "5 - 5 = ?" 0, [1; 2; 3; 0], []))
    by (vm_compute; reflexivity).
  exact (choices_within_window _ _ _ _ _ H).
Defined.

(** X4.  The shuffle returns as soon as there is one draw per position to
    fill, uses exactly those draws, and returns a permutation of the
    options; a list of at most one entry is returned as it is, without a
    draw. *)
Theorem shuffle_is_permutation (optionsList draws : list Z) :
  ((length optionsList - 1 ≤ length draws)%nat →
   ∃ shuffled,
     generateProblem_shuffle optionsList draws
     = Some (shuffled, drop (length optionsList - 1) draws) ∧
     shuffled ≡ₚ optionsList) ∧
  ((length optionsList ≤ 1)%nat →
   generateProblem_shuffle optionsList draws = Some (optionsList, draws)).
Proof.
  unfold generateProblem_shuffle. split.
  - intros Hlen.
    destruct (shuffleFrom_total _ optionsList draws Hlen) as [shuffled Hrun].
    exists shuffled. split; [exact Hrun|]. by eapply shuffleFrom_Permutation.
  - intros Hlen. replace (length optionsList - 1)%nat with 0%nat by lia. done.
Qed.

Lemma shuffle_is_permutation_witness :
  ∃ shuffled, generateProblem_shuffle [0; 1; 2; 3] [0; 0; 0] = Some (shuffled, []) ∧
              shuffled ≡ₚ [0; 1; 2; 3].
Proof.
  destruct (shuffle_is_permutation [0; 1; 2; 3] [0; 0; 0]) as [Hrun _].
  apply Hrun. simpl. lia.
Defined.

(** ** More on sessions *)

(** [generateProblem] only replaces the problem and the options. *)
Lemma runGenerateProblem_frame (draws rest : list Z) (s s' : State) :
  runGenerateProblem draws s = Some (s', rest) →
  ∃ p l, generateProblem (difficulty s) draws = Some (p, l, rest) ∧
         s' = setOptions l (setCurrentProblem (Some p) s).
Proof.
  unfold runGenerateProblem. intros H.
  destruct (generateProblem (difficulty s) draws) as [[[p l] d]|]; [|done].
  simpl in H. injection H as <- <-. by exists p, l.
Qed.

Lemma sessionStep_invariant (s s' : State) :
  sessionStep s s' → sessionInvariant s → sessionInvariant s'.
Proof.
  unfold sessionInvariant.
  intros Hstep (Hscore & Hfive & Htier & Hstreak).
  destruct Hstep as [|r selectedAnswer|draws rest s' Hgen|d draws rest s' Hgen| | | | |].
  - unfold update. destruct (bool_decide (gameStateRef s ≠ playing)); [done|].
    cbn [timeLeftRef set_timeLeftRef setTimeLeft score difficulty].
    destruct (timeLeftRef s - FRAME <=? 0)%float; [done|].
    destruct ((30 <=? score s) && (difficulty s <? 3));
      [|destruct ((15 <=? score s) && (difficulty s <? 2))]; cbn; repeat split; try done; lia.
  - unfold checkAnswer. destruct (currentProblem s) as [p|]; [|done].
    destruct (selectedAnswer =? answer p).
    + assert (Hdiv : (5 | score s + difficulty s * 5))
        by (apply Z.divide_add_r; [done | by apply Z.divide_factor_r]).
      destruct (Z.ltb_spec (maxStreak s) (correctStreak s + 1)); cbn;
        repeat split; try done; lia.
    + cbn. repeat split; try done; lia.
  - apply runGenerateProblem_frame in Hgen as (p & l & _ & ->). done.
  - apply feedbackTimeout_frame in Hgen as (p & l & _ & ->). done.
  - unfold saveHighScore. by destruct (_ && _).
  - unfold loadHighScores. by destruct (localStorage s).
  - done.
  - done.
  - done.
Qed.

(** X5.  From the first [startGame] on, through every step the component
    makes (frames, answers, problems generated by the effect or by a feedback
    timeout of any earlier render, high-score effects, tutorial buttons,
    restarts): the score is a non-negative multiple of 5, the difficulty is
    1, 2 or 3, and the streak is between 0 and the best streak. *)
Theorem session_keeps_counters (s0 s : State) :
  rtc gameStep (startGame s0) s → sessionInvariant s.
Proof.
  intros Hrun.
  assert (Hstart : ∀ s1, sessionInvariant (startGame s1)).
  { intros s1. unfold sessionInvariant. cbn. repeat split; try lia. by exists 0. }
  pose proof (Hstart s0) as Hinv.
  revert Hrun Hinv. generalize (startGame s0). intros start Hrun.
  induction Hrun as [|a b c Hstep _ IH]; intros Hinv; [done|].
  apply IH. destruct Hstep as [b Hstep|]; [|apply Hstart].
  by eapply sessionStep_invariant.
Qed.

(** Three right answers at the easy tier bring the score to 15; the next
    frame raises the difficulty to 2; the feedback timeout of the third
    answer then generates with the callback of its render, at difficulty 1. *)
Lemma session_keeps_counters_witness :
  difficulty (checkAnswer 0 0 (checkAnswer 0 0 (checkAnswer 0 0 (startGame midGame)))) = 1 ∧
  difficulty
    (update (checkAnswer 0 0 (checkAnswer 0 0 (checkAnswer 0 0 (startGame midGame))))) = 2 ∧
  ∃ s',
    feedbackTimeout 1 runFourPlusFive
      (update (checkAnswer 0 0 (checkAnswer 0 0 (checkAnswer 0 0 (startGame midGame)))))
    = Some (s', []) ∧
    sessionInvariant s'.
Proof.
  split; [vm_compute; reflexivity|]. split; [vm_compute; reflexivity|].
  destruct (feedbackTimeout 1 runFourPlusFive
              (update (checkAnswer 0 0 (checkAnswer 0 0 (checkAnswer 0 0 (startGame midGame))))))
    as [[s' rest]|] eqn:Htimeout;
    [|vm_compute in Htimeout; discriminate].
  assert (Hrest : rest = []) by (vm_compute in Htimeout; congruence).
  subst rest. exists s'. split; [reflexivity|].
  apply (session_keeps_counters midGame).
  eapply rtc_l; [apply game_session, step_checkAnswer|].
  eapply rtc_l; [apply game_session, step_checkAnswer|].
  eapply rtc_l; [apply game_session, step_checkAnswer|].
  eapply rtc_l; [apply game_session, step_update|].
  eapply rtc_l; [eapply game_session, step_feedbackTimeout; exact Htimeout|].
  apply rtc_refl.
Defined.

(** The invariant of a returned challenge, from the three parts. *)
Lemma generated_parts_invariant (difficulty : Z) (draws : list Z) (p : Problem)
    (choices rest : list Z) :
  generateProblem difficulty draws = Some (p, choices, rest) →
  answer p ∈ choices ∧ NoDup choices.
Proof.
  intros (o & draws1 & l & draws2 & Hops & Hloop & Hshuffle & ->)%generateProblem_parts.
  apply shuffleFrom_Permutation in Hshuffle.
  apply options_loop_invariant in Hloop as (_ & Hin & Hnd & _).
  - cbn [answer]. by rewrite Hshuffle.
  - simpl. lia.
  - by apply list_elem_of_singleton.
  - apply NoDup_singleton.
  - by apply Forall_singleton.
Qed.

(** X6.  After [generateProblem], exactly one position of the options holds
    the answer, and selecting a value adds 5 times the difficulty to the
    score when the value is the answer and nothing otherwise. *)
Theorem exactly_one_option_scores (draws rest : list Z) (s s' : State) :
  runGenerateProblem draws s = Some (s', rest) →
  ∃ p : Problem,
    currentProblem s' = Some p ∧
    (∃ i : nat, options s' !! i = Some (answer p) ∧
                ∀ j : nat, options s' !! j = Some (answer p) → j = i) ∧
    ∀ r c : Z, score (checkAnswer r c s')
               = score s + (if bool_decide (c = answer p) then difficulty s * 5 else 0).
Proof.
  intros (p & l & Hgen & ->)%runGenerateProblem_frame.
  apply generated_parts_invariant in Hgen as [Hin Hnd].
  exists p. split; [done|]. split.
  - apply list_elem_of_lookup_1 in Hin as [i Hi]. exists i. split; [done|].
    intros j Hj. by apply (NoDup_lookup l j i (answer p)).
  - intros r c. unfold checkAnswer. cbn [currentProblem setOptions setCurrentProblem].
    destruct (Z.eqb_spec c (answer p)) as [->|Hne].
    + rewrite bool_decide_eq_true_2 by done.
      destruct (_ <? _); reflexivity.
    + rewrite bool_decide_eq_false_2 by done. cbn. lia.
Qed.

Lemma exactly_one_option_scores_witness :
  ∃ s', runGenerateProblem runFiveMinusFive (setDifficulty 2 midGame) = Some (s', []) ∧
        score (checkAnswer 9 0 s') = 10 ∧ score (checkAnswer 9 3 s') = 0.
Proof.
  assert (H : runGenerateProblem runFiveMinusFive (setDifficulty 2 midGame)
              = Some (setOptions [1; 2; 3; 0]
                        (setCurrentProblem (Some (mkProblem "5 - 5 = ?" 0))
                           (setDifficulty 2 midGame)), []))
    by (vm_compute; reflexivity).
  destruct (exactly_one_option_scores _ _ _ _ H) as (p & Hp & _ & Hscore).
  injection Hp as <-.
  eexists. split; [exact H|]. by rewrite !Hscore.
Defined.

(** ** More on high scores *)

Global Instance descending_antisymm : AntiSymm (=) descending.
Proof. intros a b. unfold descending. lia. Qed.

(** X7.  When five scores are stored, in descending order, and the final
    score is not above any of them, the save effect leaves the list as it
    is. *)
Theorem low_score_leaves_full_list (s : State) :
  gameState s = gameOver → 0 < score s →
  StronglySorted descending (highScores s) → length (highScores s) = 5%nat →
  Forall (λ x, score s ≤ x) (highScores s) →
  highScores (saveHighScore s) = highScores s.
Proof.
  intros Hover Hpos Hsorted Hlen Hlow.
  unfold saveHighScore. rewrite bool_decide_eq_true_2 by done.
  destruct (Z.ltb_spec 0 (score s)); [|lia].
  cbn [andb highScores set_localStorage setHighScores].
  assert (Hsort : sortDescending (highScores s ++ [score s]) = highScores s ++ [score s]).
  { apply (StronglySorted_unique descending).
    - apply StronglySorted_merge_sort; apply _.
    - apply StronglySorted_app_2; [|done|repeat constructor].
      intros x1 x2 Hx1 ->%list_elem_of_singleton.
      rewrite Forall_forall in Hlow. by apply Hlow.
    - apply merge_sort_Permutation. }
  rewrite Hsort. by apply take_app_length'.
Qed.

Lemma low_score_leaves_full_list_witness :
  highScores (saveHighScore fullBoard) = [90; 70; 50; 30; 20].
Proof.
  apply (low_score_leaves_full_list fullBoard).
  - vm_compute. reflexivity.
  - vm_compute. reflexivity.
  - repeat constructor; unfold descending; lia.
  - reflexivity.
  - change (score fullBoard) with 20.
    repeat (constructor; [lia|]). constructor.
Defined.

(** X8.  After the save effect has stored a score, the first entry of the
    list is a best score: it is at least the score just stored and at least
    every score stored before. *)
Theorem best_score_on_top (s : State) :
  gameState s = gameOver → 0 < score s →
  ∃ best : Z,
    highScores (saveHighScore s) !! 0%nat = Some best ∧
    best ∈ highScores s ++ [score s] ∧
    score s ≤ best ∧ Forall (λ x, x ≤ best) (highScores s).
Proof.
  intros Hover Hpos.
  unfold saveHighScore. rewrite bool_decide_eq_true_2 by done.
  destruct (Z.ltb_spec 0 (score s)); [|lia].
  cbn [andb highScores set_localStorage setHighScores]. unfold sortDescending.
  pose proof (merge_sort_Permutation descending (highScores s ++ [score s])) as Hperm.
  pose proof (StronglySorted_merge_sort descending (highScores s ++ [score s])) as Hsorted.
  destruct (merge_sort descending (highScores s ++ [score s])) as [|best tail].
  { apply Permutation_nil in Hperm. by destruct (highScores s). }
  apply StronglySorted_cons in Hsorted as [Htail _]. rewrite Forall_forall in Htail.
  assert (Hall : ∀ x, x ∈ highScores s ++ [score s] → x ≤ best).
  { intros x Hx. rewrite <- Hperm in Hx. apply elem_of_cons in Hx as [->|Hx]; [lia|].
    by apply Htail. }
  exists best. split; [done|]. split; [rewrite <- Hperm; left|].
  split; [apply Hall, elem_of_app; right; by apply list_elem_of_singleton|].
  apply Forall_forall. intros x Hx. apply Hall, elem_of_app. by left.
Qed.

Lemma best_score_on_top_witness :
  ∃ best : Z, highScores (saveHighScore endedGame) !! 0%nat = Some best ∧ 20 ≤ best.
Proof.
  destruct (best_score_on_top endedGame) as (best & Htop & _ & Hscore & _).
  - vm_compute. reflexivity.
  - vm_compute. reflexivity.
  - exists best. split; [exact Htop | exact Hscore].
Defined.

End MathMasterFacts.

(** * Facts about Balloon Pop *)
Module BalloonPopFacts.
Import BalloonPop.

Local Open Scope float_scope.
Set Warnings "-inexact-float".

(** ** The type picker *)


(** The running sums the loop compares with, in binary64. *)
Lemma cumulativeProbability_table :
  cumulativeProbability NORMAL = 0.55 ∧ cumulativeProbability BOMB = 0.75 ∧
  cumulativeProbability GOLDEN = 0.85 ∧ cumulativeProbability SPEED = 0.95 ∧
  cumulativeProbability LIFE = 1.
Proof. repeat split; vm_compute; reflexivity. Qed.




(** ** The per-frame step *)

(** The balloon the body of the loop leaves behind. *)
Lemma rise_balloon (s : State) (b : Balloon) :
  (rise s b).2 = afterTick (speedMultiplier s) b.
Proof.
  unfold rise, afterTick, crosses.
  destruct (popped b); simpl; [done|].
  destruct (escaped (lifted (speedMultiplier s) b)); [|done].
  destruct (bool_decide _); [|done].
  by destruct (_ <=? _)%Z.
Qed.

(** The cells the body of the loop leaves behind. *)
Lemma rise_state (s : State) (b : Balloon) :
  let lost := if costsLife (speedMultiplier s) b then 1%Z else 0%Z in
  let over := costsLife (speedMultiplier s) b && (livesRef s - 1 <=? 0)%Z in
  livesRef (rise s b).1 = (livesRef s - lost)%Z ∧
  activePowerUpRef (rise s b).1 = activePowerUpRef s ∧
  gameStateRef (rise s b).1 = (if over then gameOver else gameStateRef s) ∧
  gameState (rise s b).1 = (if over then gameOver else gameState s).
Proof.
  unfold rise, costsLife, crosses.
  destruct (popped b); simpl; [repeat split; lia|].
  destruct (escaped (lifted (speedMultiplier s) b)); simpl; [|repeat split; lia].
  destruct (bool_decide (type b ≠ BOMB)); simpl; [|repeat split; lia].
  destruct (livesRef s - 1 <=? 0)%Z; simpl; repeat split; lia.
Qed.

Lemma speedMultiplier_ext (s s' : State) :
  activePowerUpRef s' = activePowerUpRef s → speedMultiplier s' = speedMultiplier s.
Proof. unfold speedMultiplier. by intros ->. Qed.

Lemma livesLost_nonneg (m : float) (balloons : list Balloon) : (0 ≤ livesLost m balloons)%Z.
Proof. unfold livesLost. lia. Qed.

Lemma livesLost_cons (m : float) (b : Balloon) (balloons : list Balloon) :
  livesLost m (b :: balloons)
  = ((if costsLife m b then 1 else 0) + livesLost m balloons)%Z.
Proof.
  unfold livesLost. rewrite filter_cons.
  destruct (decide (costsLife m b = true)) as [->|Hno]; simpl length.
  - lia.
  - by destruct (costsLife m b).
Qed.

(** The whole loop: every balloon gets its [afterTick], the lives go down
    by [livesLost], and the game is over when a deduction has brought the
    lives to zero or below. *)
Lemma forEach_rise (m : float) (balloons : list Balloon) :
  ∀ s : State, speedMultiplier s = m →
    let over := (0 <? livesLost m balloons)%Z
                && (livesRef s - livesLost m balloons <=? 0)%Z in
    (forEach rise balloons s).2 = map (afterTick m) balloons ∧
    livesRef (forEach rise balloons s).1 = (livesRef s - livesLost m balloons)%Z ∧
    gameStateRef (forEach rise balloons s).1 = (if over then gameOver else gameStateRef s) ∧
    gameState (forEach rise balloons s).1 = (if over then gameOver else gameState s).
Proof.
  induction balloons as [|b balloons IH]; intros s Hm.
  { change (livesLost m []) with 0%Z. simpl. repeat split; lia. }
  pose proof (rise_balloon s b) as Hb.
  pose proof (rise_state s b) as (Hlives & Hpower & Hphase & Hshown).
  simpl in Hlives, Hphase, Hshown. rewrite Hm in Hb, Hlives, Hphase, Hshown.
  simpl forEach. destruct (rise s b) as [s1 b1]. simpl in Hb, Hlives, Hpower, Hphase, Hshown.
  specialize (IH s1). rewrite (speedMultiplier_ext _ _ Hpower) in IH.
  destruct (IH Hm) as (IHb & IHlives & IHphase & IHshown). clear IH.
  destruct (forEach rise balloons s1) as [s2 rest]. simpl in *.
  rewrite livesLost_cons. pose proof (livesLost_nonneg m balloons) as Hnonneg.
  split; [by rewrite Hb, IHb|]. split; [lia|].
  rewrite IHphase, IHshown, Hphase, Hshown, Hlives. clear -Hnonneg.
  destruct (costsLife m b); simpl;
    repeat match goal with
           | |- context [(?a <=? ?b)%Z] => destruct (Z.leb_spec a b)
           | |- context [(?a <? ?b)%Z] => destruct (Z.ltb_spec a b)
           end; simpl; try done; lia.
Qed.

(** The timers leave the balloons, the lives and the phase alone. *)
Lemma tickTimers_frame (s : State) :
  balloonsRef (tickTimers s) = balloonsRef s ∧ livesRef (tickTimers s) = livesRef s ∧
  gameStateRef (tickTimers s) = gameStateRef s ∧ gameState (tickTimers s) = gameState s.
Proof.
  unfold tickTimers.
  repeat match goal with |- context [if ?c then _ else _] => destruct c end; done.
Qed.

(** C10.  In a tick of the playing phase, with [m] the speed multiplier in
    force: a live balloon that crosses the top boundary is marked popped and
    is not kept; the balloons kept are those, after the move, still below
    the boundary and not popped; the lives go down by one for each crossing
    balloon that is not a bomb, and by nothing for a bomb; and the phase
    becomes game over in this tick exactly when such a deduction has brought
    the lives to zero or below. *)
Theorem escaped_balloons_cost_lives (s : State) :
  gameStateRef s = playing →
  let m := speedMultiplier (tickTimers s) in
  let lost := livesLost m (balloonsRef s) in
  (∀ b, b ∈ balloonsRef s → crosses m b = true →
        popped (afterTick m b) = true ∧ kept (afterTick m b) = false ∧
        costsLife m b = bool_decide (type b ≠ BOMB)) ∧
  balloonsRef (update s) = filter (λ b, kept b = true) (map (afterTick m) (balloonsRef s)) ∧
  livesRef (update s) = (livesRef s - lost)%Z ∧
  (gameStateRef (update s) = gameOver ↔ (0 < lost ∧ livesRef s - lost ≤ 0)%Z) ∧
  gameState (update s) = (if bool_decide (gameStateRef (update s) = gameOver)
                          then gameOver else gameState s).
Proof.
  intros Hplaying m lost.
  split.
  { intros b _ Hcross. unfold afterTick, costsLife. rewrite Hcross.
    unfold crosses in Hcross. apply andb_true_iff in Hcross as [Hlive _].
    destruct (popped b); [done|]. unfold kept. cbn. by rewrite andb_false_r. }
  unfold update. rewrite bool_decide_eq_false_2 by (rewrite Hplaying; auto).
  pose proof (tickTimers_frame s) as (Hballoons & Hlives & Hphase & Hshown).
  pose proof (forEach_rise m (balloonsRef (tickTimers s)) (tickTimers s) eq_refl)
    as (Hb & Hl & Hp & Hs).
  destruct (forEach rise (balloonsRef (tickTimers s)) (tickTimers s)) as [s1 balloons].
  simpl in Hb, Hl, Hp, Hs. rewrite Hballoons in Hb, Hl, Hp, Hs.
  fold lost in Hl, Hp, Hs. rewrite Hlives in Hl, Hp, Hs.
  rewrite Hphase, Hplaying in Hp. rewrite Hshown in Hs.
  cbn [balloonsRef livesRef gameStateRef gameState set_balloonsRef].
  rewrite Hb, Hl, Hp, Hs. clear.
  split; [done|]. split; [done|].
  destruct (Z.ltb_spec 0 lost), (Z.leb_spec (livesRef s - lost) 0); simpl.
  all: split; [split; [intros ?; try done; lia | intros [? ?]; try done; lia]|].
  all: by repeat case_bool_decide.
Qed.

Lemma escaped_balloons_cost_lives_witness :
  gameStateRef lastLife = playing ∧
  balloonsRef (update lastLife) = [] ∧ livesRef (update lastLife) = 0%Z ∧
  gameStateRef (update lastLife) = gameOver.
Proof.
  destruct (escaped_balloons_cost_lives lastLife eq_refl) as (_ & Hb & Hl & Hp & _).
  split; [reflexivity|]. split; [rewrite Hb; vm_compute; reflexivity|].
  split; [rewrite Hl; vm_compute; reflexivity|].
  apply Hp. vm_compute. split; [reflexivity | discriminate].
Defined.

(** The boundary itself: a balloon whose lower edge lands exactly on the
    top boundary has not crossed it, and is no longer kept either.  An
    untouched [NORMAL] balloon, 2 pixels a frame from 630, lands there after
    330 frames and goes without costing a life. *)
Lemma boundary_balloon_goes_free :
  balloonsRef (frames update 329 (spawnBalloon 0.5 0.3 (startGame (initialState 0))))
    = [mkBalloon 200 (-28) false NORMAL 2] ∧
  balloonsRef (frames update 330 (spawnBalloon 0.5 0.3 (startGame (initialState 0)))) = [] ∧
  livesRef (frames update 330 (spawnBalloon 0.5 0.3 (startGame (initialState 0))))
    = INITIAL_LIVES.
Proof. split; [|split]; vm_compute; reflexivity. Qed.

(** ** The phases *)

Lemma forEach_preserves (P : State → Prop) (body : State → Balloon → State * Balloon) :
  (∀ s b, P s → P (body s b).1) →
  ∀ balloons s, P s → P (forEach body balloons s).1.
Proof.
  intros Hbody. induction balloons as [|b balloons IH]; intros s Hs; simpl; [done|].
  specialize (Hbody s b Hs). destruct (body s b) as [s1 b1].
  specialize (IH s1 Hbody). by destruct (forEach body balloons s1).
Qed.

Lemma rise_onOrOver (s : State) (b : Balloon) : onOrOver s → onOrOver (rise s b).1.
Proof.
  unfold onOrOver, rise. intros [Heq Hphase].
  repeat match goal with |- context [if ?c then _ else _] => destruct c end;
    cbn; auto.
Qed.

Lemma popAt_onOrOver (shown : Z) (pointX pointY : float) (s : State) (b : Balloon) :
  onOrOver s → onOrOver (popAt shown pointX pointY s b).1.
Proof.
  unfold onOrOver, popAt, handleBalloonPop. intros [Heq Hphase].
  destruct (negb (popped b)); [|auto].
  destruct (_ <=? _); [|auto].
  cbn [type set_popped]. destruct (type b);
    repeat match goal with |- context [if ?c then _ else _] => destruct c end;
    cbn; auto.
Qed.

Lemma update_onOrOver (s : State) : onOrOver s → onOrOver (update s).
Proof.
  intros Hs. unfold update. destruct (bool_decide _); [done|].
  assert (Ht : onOrOver (tickTimers s)).
  { unfold onOrOver. by destruct (tickTimers_frame s) as (_ & _ & -> & ->). }
  pose proof (forEach_preserves onOrOver rise rise_onOrOver
                (balloonsRef (tickTimers s)) (tickTimers s) Ht) as H.
  by destruct (forEach rise (balloonsRef (tickTimers s)) (tickTimers s)).
Qed.

Lemma popBalloons_onOrOver (pointX pointY : float) (s : State) :
  onOrOver s → onOrOver (popBalloons pointX pointY s).
Proof.
  intros Hs. unfold popBalloons.
  pose proof (forEach_preserves onOrOver _ (popAt_onOrOver (highScore s) pointX pointY)
                (balloonsRef s) s Hs) as H.
  by destruct (forEach (popAt (highScore s) pointX pointY) (balloonsRef s) s).
Qed.

Lemma onOrOver_successors (s : State) (phases : list GameState) :
  onOrOver s → playing ∈ phases → gameOver ∈ phases →
  gameState s ∈ phases ∧ gameState s = gameStateRef s.
Proof. intros [Heq [H|H]] ? ?; rewrite Heq, H; done. Qed.

(** C4, as amended.  With the two copies of the phase in agreement, every
    event leads to one of the phases [successors] lists, and leaves the
    copies in agreement.  A click starts a waiting game; pause and resume
    swap playing and paused; frames and pops keep the phase or end the game.  The phase goes back in
    two ways only: the Reset button returns playing or paused to waiting,
    and a click in the game-over phase restarts into playing. *)
Theorem phase_transitions (e : Event) (s : State) :
  gameState s = gameStateRef s →
  gameState (react e s) ∈ successors e (gameState s) ∧
  gameState (react e s) = gameStateRef (react e s) ∧
  ((rank (gameState s) ≤ rank (gameState (react e s)))%nat ∨
   (e = ResetButton ∧ gameState (react e s) = waiting) ∨
   (∃ mouseX mouseY, e = Click mouseX mouseY ∧ gameState s = gameOver ∧
                     gameState (react e s) = playing)).
Proof.
  intros Heq.
  assert (Hmain : gameState (react e s) ∈ successors e (gameState s) ∧
                  gameState (react e s) = gameStateRef (react e s)).
  { destruct e as [mouseX mouseY|touchX touchY| | | |randX randType]; simpl.
    - unfold handleCanvasClick. rewrite <- Heq.
      destruct (gameState s) eqn:Hphase; cbn; rewrite ?list_elem_of_singleton; try done.
      + apply onOrOver_successors; [|rewrite !elem_of_cons; auto..].
        apply popBalloons_onOrOver. unfold onOrOver. rewrite <- Heq. auto.
      + by rewrite Hphase, <- Heq.
    - unfold handleTouch. rewrite <- Heq.
      destruct (gameState s) eqn:Hphase; case_bool_decide; try done; cbn;
        rewrite ?list_elem_of_singleton, ?Hphase, <- ?Heq; try done.
      apply onOrOver_successors; [|rewrite !elem_of_cons; auto..].
      apply popBalloons_onOrOver. unfold onOrOver. rewrite <- Heq. auto.
    - unfold controlsShown, togglePause.
      destruct (gameState s) eqn:Hphase; repeat (case_bool_decide; try done); cbn;
        rewrite ?list_elem_of_singleton, ?Hphase, <- ?Heq; done.
    - unfold controlsShown, resetGame.
      destruct (gameState s) eqn:Hphase; repeat (case_bool_decide; try done); cbn;
        rewrite ?list_elem_of_singleton, ?Hphase, <- ?Heq; done.
    - destruct (gameState s) eqn:Hphase.
      2: { apply onOrOver_successors; [|rewrite !elem_of_cons; auto..].
           apply update_onOrOver. unfold onOrOver. rewrite <- Heq. auto. }
      all: unfold update; rewrite bool_decide_eq_true_2 by (rewrite <- Heq; done).
      all: cbn; rewrite ?list_elem_of_singleton, ?Hphase, <- ?Heq; done.
    - unfold spawnBalloon.
      destruct (gameState s) eqn:Hphase; repeat (case_bool_decide; try done); cbn;
        rewrite ?list_elem_of_singleton, ?Hphase, <- ?Heq; done. }
  destruct Hmain as [Hin Hagree]. split; [exact Hin|]. split; [exact Hagree|].
  revert Hin. generalize (gameState (react e s)). intros phase' Hin.
  destruct e as [mouseX mouseY|touchX touchY| | | |randX randType];
    destruct (gameState s) eqn:Hphase; cbn in Hin;
    rewrite ?elem_of_cons, ?elem_of_nil in Hin;
    repeat match type of Hin with _ ∨ _ => destruct Hin as [Hin|Hin] end;
    try done; subst phase'; cbn;
    first [left; lia | right; left; done | right; right; by do 2 eexists].
Qed.

(** The Pause button while playing. *)
Lemma phase_transitions_witness :
  gameState (react PauseButton (startGame (initialState 0))) = paused ∧
  gameState (react PauseButton (react PauseButton (startGame (initialState 0)))) = playing.
Proof.
  destruct (phase_transitions PauseButton (startGame (initialState 0)) eq_refl)
    as (Hpause & Hagree & _).
  apply list_elem_of_singleton in Hpause.
  destruct (phase_transitions PauseButton
              (react PauseButton (startGame (initialState 0))) Hagree)
    as (Hresume & _).
  rewrite Hpause in Hresume. apply list_elem_of_singleton in Hresume.
  split; [exact Hpause | exact Hresume].
Defined.

(** C4, as stated, fails: the Reset button takes a playing session, and a
    paused one, back to the waiting phase. *)
Lemma reset_returns_to_waiting :
  gameState (startGame (initialState 0)) = playing ∧
  gameState (react ResetButton (startGame (initialState 0))) = waiting ∧
  gameState (react PauseButton (startGame (initialState 0))) = paused ∧
  gameState (react ResetButton (react PauseButton (startGame (initialState 0)))) = waiting ∧
  (rank waiting < rank playing)%nat.
Proof. repeat split. vm_compute. lia. Qed.

(** ** More on lives, scores and timers *)

Ltac split_ifs :=
  repeat match goal with |- context [if ?c then _ else _] => destruct c eqn:? end.

Ltac arith_hyps :=
  repeat match goal with
         | H : (_ <=? _)%Z = true |- _ => apply Z.leb_le in H
         | H : (_ <=? _)%Z = false |- _ => apply Z.leb_gt in H
         | H : (_ <? _)%Z = true |- _ => apply Z.ltb_lt in H
         | H : (_ <? _)%Z = false |- _ => apply Z.ltb_ge in H
         end.

Lemma rise_livesInLoop (s : State) (b : Balloon) : livesInLoop s → livesInLoop (rise s b).1.
Proof.
  unfold livesInLoop, rise. intros (Heq & Hmax & Hphase & Hmin).
  split_ifs; arith_hyps; cbn in *; repeat split; auto; try lia; try done.
  all: intros Hp; specialize (Hmin Hp); lia.
Qed.

Lemma popAt_livesInLoop (shown : Z) (pointX pointY : float) (s : State) (b : Balloon) :
  livesInLoop s → livesInLoop (popAt shown pointX pointY s b).1.
Proof.
  unfold livesInLoop, popAt, handleBalloonPop. intros (Heq & Hmax & Hphase & Hmin).
  destruct (negb (popped b)); [|done].
  destruct (_ <=? _); [|done].
  cbn [type set_popped]. destruct (type b); split_ifs; arith_hyps; cbn in *;
    repeat split; auto; try lia; try done.
  all: intros Hp; specialize (Hmin Hp); lia.
Qed.

Lemma livesInLoop_livesInvariant (s : State) : livesInLoop s → livesInvariant s.
Proof.
  intros (Heq & Hmax & [Hp|Hp] & Hmin); repeat split; auto; intros Hne; auto.
  by rewrite Hp in Hne.
Qed.

Lemma livesInvariant_livesInLoop (s : State) :
  livesInvariant s → gameStateRef s = playing → livesInLoop s.
Proof.
  intros (Heq & Hmax & Hmin) Hp. repeat split; auto.
  intros _. apply Hmin. by rewrite Hp.
Qed.

Lemma tickTimers_livesInLoop (s : State) : livesInLoop s → livesInLoop (tickTimers s).
Proof.
  unfold livesInLoop.
  by destruct (tickTimers_frame s) as (_ & -> & -> & ->).
Qed.

(** X10.  Whatever the event, the lives stay at most 5 and, as long as the
    game is not over, at least 1; the first render starts within these
    bounds. *)
Theorem lives_stay_in_bounds (e : Event) (s : State) :
  livesInvariant s → livesInvariant (react e s).
Proof.
  intros Hinv. pose proof Hinv as (Heq & Hmax & Hmin).
  assert (Hstart : livesInvariant (startGame s)).
  { unfold livesInvariant. cbn. unfold INITIAL_LIVES.
    repeat split; [lia | intros _; lia]. }
  assert (Hpop : ∀ pointX pointY, gameStateRef s = playing →
                   livesInvariant (popBalloons pointX pointY s)).
  { intros pointX pointY Hp. apply livesInLoop_livesInvariant. unfold popBalloons.
    pose proof (forEach_preserves livesInLoop _
                  (popAt_livesInLoop (highScore s) pointX pointY) (balloonsRef s) s
                  (livesInvariant_livesInLoop s Hinv Hp)) as H.
    by destruct (forEach (popAt (highScore s) pointX pointY) (balloonsRef s) s). }
  destruct e as [mouseX mouseY|touchX touchY| | | |randX randType]; simpl.
  - unfold handleCanvasClick. destruct (gameStateRef s) eqn:Hp; auto.
  - unfold handleTouch. case_bool_decide as Hp; [exact Hinv|].
    apply Hpop. by destruct (gameStateRef s).
  - unfold controlsShown, togglePause. unfold livesInvariant in *.
    repeat (case_bool_decide; try done); cbn; repeat split; auto; intros _; apply Hmin; congruence.
  - unfold controlsShown, resetGame. unfold livesInvariant in *.
    repeat (case_bool_decide; try done); cbn; unfold INITIAL_LIVES;
      repeat split; auto; try lia; intros _; lia.
  - unfold update. case_bool_decide as Hp; [done|].
    assert (Hplaying : gameStateRef s = playing) by (by destruct (gameStateRef s)).
    apply livesInLoop_livesInvariant.
    pose proof (forEach_preserves livesInLoop rise rise_livesInLoop
                  (balloonsRef (tickTimers s)) (tickTimers s)
                  (tickTimers_livesInLoop s (livesInvariant_livesInLoop s Hinv Hplaying)))
      as H.
    by destruct (forEach rise (balloonsRef (tickTimers s)) (tickTimers s)).
  - case_bool_decide; done.
Qed.

Lemma lives_stay_in_bounds_witness :
  livesInvariant crowded ∧ livesInvariant (react (Click 200 300) crowded).
Proof.
  assert (H : livesInvariant crowded).
  { unfold livesInvariant. cbn. repeat split; [lia | intros _; lia]. }
  split; [exact H | exact (lives_stay_in_bounds (Click 200 300) crowded H)].
Defined.

Lemma popAt_scoresInLoop (shown : Z) (pointX pointY : float) (s : State) (b : Balloon) :
  scoresInLoop shown s → scoresInLoop shown (popAt shown pointX pointY s b).1.
Proof.
  unfold scoresInLoop, popAt, handleBalloonPop. intros [Hshown Hscore].
  destruct (negb (popped b)); [|done].
  destruct (_ <=? _); [|done].
  cbn [type set_popped]. destruct (type b); split_ifs; arith_hyps; cbn in *; lia.
Qed.

(** The scores a frame leaves alone. *)
Lemma rise_scores (shown score : Z) (s : State) (b : Balloon) :
  highScore s = shown ∧ scoreRef s = score →
  highScore (rise s b).1 = shown ∧ scoreRef (rise s b).1 = score.
Proof. unfold rise. intros [<- <-]. split_ifs; done. Qed.

Lemma tickTimers_scores (s : State) :
  highScore (tickTimers s) = highScore s ∧ scoreRef (tickTimers s) = scoreRef s.
Proof. unfold tickTimers. split_ifs; done. Qed.

(** X11.  The high score never goes down, never falls below the score and
    never becomes negative, whatever the event. *)
Theorem high_score_never_falls (e : Event) (s : State) :
  scoreInvariant s →
  (highScore s ≤ highScore (react e s))%Z ∧ scoreInvariant (react e s).
Proof.
  unfold scoreInvariant. intros [Hnonneg Hscore].
  assert (Hpop : ∀ pointX pointY,
            (highScore s ≤ highScore (popBalloons pointX pointY s))%Z ∧
            (scoreRef (popBalloons pointX pointY s)
             ≤ highScore (popBalloons pointX pointY s))%Z).
  { intros pointX pointY. unfold popBalloons.
    pose proof (forEach_preserves (scoresInLoop (highScore s)) _
                  (popAt_scoresInLoop (highScore s) pointX pointY) (balloonsRef s) s) as H.
    destruct (forEach (popAt (highScore s) pointX pointY) (balloonsRef s) s) as [s1 l].
    apply H. unfold scoresInLoop. lia. }
  destruct e as [mouseX mouseY|touchX touchY| | | |randX randType]; simpl.
  - unfold handleCanvasClick. destruct (gameStateRef s); cbn; try lia.
    destruct (Hpop mouseX mouseY). lia.
  - unfold handleTouch. case_bool_decide; [lia|]. destruct (Hpop touchX touchY). lia.
  - unfold controlsShown, togglePause. repeat (case_bool_decide; try done); cbn; lia.
  - unfold controlsShown, resetGame. repeat (case_bool_decide; try done); cbn; lia.
  - unfold update. case_bool_decide; [lia|].
    destruct (tickTimers_scores s) as [Hh Hs].
    pose proof (forEach_preserves _ rise (rise_scores (highScore s) (scoreRef s))
                  (balloonsRef (tickTimers s)) (tickTimers s) (conj Hh Hs)) as Hloop.
    destruct (forEach rise (balloonsRef (tickTimers s)) (tickTimers s)) as [s1 l].
    destruct Hloop as [H1 H2]. cbn in *. lia.
  - case_bool_decide; cbn; lia.
Qed.

Lemma high_score_never_falls_witness :
  (0 ≤ highScore (react (Click 200 300) crowded))%Z ∧
  (scoreRef (react (Click 200 300) crowded) ≤ highScore (react (Click 200 300) crowded))%Z.
Proof.
  destruct (high_score_never_falls (Click 200 300) crowded) as [_ H].
  - unfold scoreInvariant. cbn. lia.
  - exact H.
Defined.

(** What one frame does to the two timers. *)
Lemma tickTimers_timers (s : State) :
  powerUpTimerRef (tickTimers s)
    = (if 0 <? powerUpTimerRef s then powerUpTimerRef s - 16 else powerUpTimerRef s)%Z ∧
  activePowerUpRef (tickTimers s)
    = (if (0 <? powerUpTimerRef s)%Z && (powerUpTimerRef s - 16 <=? 0)%Z
       then None else activePowerUpRef s) ∧
  comboTimerRef (tickTimers s)
    = (if 0 <? comboTimerRef s then comboTimerRef s - 16 else comboTimerRef s)%Z ∧
  comboRef (tickTimers s)
    = (if (0 <? comboTimerRef s)%Z && (comboTimerRef s - 16 <=? 0)%Z
       then 0 else comboRef s)%Z.
Proof.
  unfold tickTimers.
  destruct (0 <? comboTimerRef s)%Z; cbn;
    [destruct (comboTimerRef s - 16 <=? 0)%Z; cbn|];
    (destruct (0 <? powerUpTimerRef s)%Z; cbn;
     [destruct (powerUpTimerRef s - 16 <=? 0)%Z; cbn|]); done.
Qed.

Lemma timers_after_frames (n : nat) :
  ∀ s : State,
    activePowerUpRef (frames tickTimers n s)
      = (if (0 <? powerUpTimerRef s)%Z && negb (16 * Z.of_nat n <? powerUpTimerRef s)%Z
         then None else activePowerUpRef s) ∧
    comboRef (frames tickTimers n s)
      = (if (0 <? comboTimerRef s)%Z && negb (16 * Z.of_nat n <? comboTimerRef s)%Z
         then 0 else comboRef s)%Z.
Proof.
  induction n as [|n IH]; intros s.
  { cbn [frames]. change (16 * Z.of_nat 0)%Z with 0%Z.
    destruct (0 <? powerUpTimerRef s)%Z, (0 <? comboTimerRef s)%Z; done. }
  cbn [frames]. destruct (IH (tickTimers s)) as [Hpower Hcombo].
  destruct (tickTimers_timers s) as (Hpt & Hpa & Hct & Hca).
  rewrite Hpower, Hcombo, Hpt, Hpa, Hct, Hca. clear.
  rewrite Nat2Z.inj_succ. split.
  - destruct (Z.ltb_spec 0 (powerUpTimerRef s)); cbn;
      repeat match goal with
             | |- context [(?a <=? ?b)%Z] => destruct (Z.leb_spec a b)
             | |- context [(?a <? ?b)%Z] => destruct (Z.ltb_spec a b)
             end; cbn; try done; lia.
  - destruct (Z.ltb_spec 0 (comboTimerRef s)); cbn;
      repeat match goal with
             | |- context [(?a <=? ?b)%Z] => destruct (Z.leb_spec a b)
             | |- context [(?a <? ?b)%Z] => destruct (Z.ltb_spec a b)
             end; cbn; try done; lia.
Qed.

(** The timers a balloon leaves alone. *)
Lemma rise_timers (a : option PowerUp) (t c ct : Z) (s : State) (b : Balloon) :
  activePowerUpRef s = a ∧ powerUpTimerRef s = t ∧ comboRef s = c ∧ comboTimerRef s = ct →
  activePowerUpRef (rise s b).1 = a ∧ powerUpTimerRef (rise s b).1 = t ∧
  comboRef (rise s b).1 = c ∧ comboTimerRef (rise s b).1 = ct.
Proof. unfold rise. intros (<- & <- & <- & <-). split_ifs; done. Qed.

(** X12.  The timers count frames of 16 ms: a running power-up timer of [t]
    ms keeps the power-up for the frames [n] with [16 n < t] and clears it
    from then on, and a running combo timer does the same to the combo; a
    timer that is not running changes nothing.  While the game is playing,
    a frame of [update] moves the timers exactly as [tickTimers] does. *)
Theorem timers_expire_by_frames (n : nat) (s : State) :
  ((0 < powerUpTimerRef s)%Z →
   activePowerUpRef (frames tickTimers n s)
   = (if (16 * Z.of_nat n <? powerUpTimerRef s)%Z then activePowerUpRef s else None)) ∧
  ((0 < comboTimerRef s)%Z →
   comboRef (frames tickTimers n s)
   = (if (16 * Z.of_nat n <? comboTimerRef s)%Z then comboRef s else 0)%Z) ∧
  ((powerUpTimerRef s ≤ 0)%Z →
   activePowerUpRef (frames tickTimers n s) = activePowerUpRef s) ∧
  ((comboTimerRef s ≤ 0)%Z → comboRef (frames tickTimers n s) = comboRef s) ∧
  (gameStateRef s = playing →
   activePowerUpRef (update s) = activePowerUpRef (tickTimers s) ∧
   powerUpTimerRef (update s) = powerUpTimerRef (tickTimers s) ∧
   comboRef (update s) = comboRef (tickTimers s) ∧
   comboTimerRef (update s) = comboTimerRef (tickTimers s)).
Proof.
  destruct (timers_after_frames n s) as [Hpower Hcombo].
  rewrite Hpower, Hcombo.
  split; [|split; [|split; [|split]]].
  - intros Ht. destruct (Z.ltb_spec 0 (powerUpTimerRef s)); [|lia]. cbn.
    by destruct (16 * Z.of_nat n <? powerUpTimerRef s)%Z.
  - intros Ht. destruct (Z.ltb_spec 0 (comboTimerRef s)); [|lia]. cbn.
    by destruct (16 * Z.of_nat n <? comboTimerRef s)%Z.
  - intros Ht. by destruct (Z.ltb_spec 0 (powerUpTimerRef s)); [lia|].
  - intros Ht. by destruct (Z.ltb_spec 0 (comboTimerRef s)); [lia|].
  - intros Hp. unfold update. rewrite bool_decide_eq_false_2 by (rewrite Hp; auto).
    pose proof (forEach_preserves _ rise
                  (rise_timers (activePowerUpRef (tickTimers s))
                     (powerUpTimerRef (tickTimers s)) (comboRef (tickTimers s))
                     (comboTimerRef (tickTimers s)))
                  (balloonsRef (tickTimers s)) (tickTimers s)) as H.
    destruct (forEach rise (balloonsRef (tickTimers s)) (tickTimers s)) as [s1 l].
    by apply H.
Qed.

(** The slow-down of 5000 ms is there for 312 frames and gone at the 313th;
    the combo window of 2000 ms closes at the 125th. *)
Lemma timers_expire_by_frames_witness :
  activePowerUpRef (frames tickTimers 312 slowed) = Some SPEED_POWER ∧
  activePowerUpRef (frames tickTimers 313 slowed) = None ∧
  comboRef (frames tickTimers 124 slowed) = 3%Z ∧
  comboRef (frames tickTimers 125 slowed) = 0%Z.
Proof.
  destruct (timers_expire_by_frames 312 slowed) as (H312 & _).
  destruct (timers_expire_by_frames 313 slowed) as (H313 & _).
  destruct (timers_expire_by_frames 124 slowed) as (_ & H124 & _).
  destruct (timers_expire_by_frames 125 slowed) as (_ & H125 & _).
  split; [rewrite H312; [reflexivity | cbn; lia]|].
  split; [rewrite H313; [reflexivity | cbn; lia]|].
  split; [rewrite H124; [reflexivity | cbn; lia] | rewrite H125; [reflexivity | cbn; lia]].
Defined.

(** ** More on clicks and pauses *)

Lemma balloon_update_idle (s : State) : gameStateRef s ≠ playing → update s = s.
Proof. intros H. unfold update. by rewrite bool_decide_eq_true_2. Qed.

(** X13.  Outside the playing phase a session is frozen: frames, touches,
    spawns and clicks change nothing at all, except the click that starts a
    waiting or finished game and the two buttons of a paused one.  Pausing
    and resuming a playing session, with any number of frames in between,
    gives back the very same state. *)
Theorem session_frozen_unless_playing (s : State) :
  gameState s = gameStateRef s →
  (gameStateRef s ≠ playing →
   ∀ e : Event, wakes e (gameStateRef s) = false → react e s = s) ∧
  (gameStateRef s = playing →
   ∀ n : nat, react PauseButton (frames (react Frame) n (react PauseButton s)) = s).
Proof.
  intros Heq. split.
  - intros Hphase e Hwake.
    destruct e as [mouseX mouseY|touchX touchY| | | |randX randType]; simpl.
    + unfold handleCanvasClick. by destruct (gameStateRef s).
    + unfold handleTouch. by rewrite bool_decide_eq_true_2.
    + unfold controlsShown, togglePause. rewrite Heq.
      destruct (gameStateRef s); try done; by repeat case_bool_decide.
    + unfold controlsShown. rewrite Heq.
      destruct (gameStateRef s); try done; by repeat case_bool_decide.
    + unfold update. by rewrite bool_decide_eq_true_2.
    + rewrite Heq. by rewrite bool_decide_eq_false_2.
  - intros Hplaying n.
    assert (Hpaused : gameStateRef (react PauseButton s) = paused).
    { simpl. unfold controlsShown, togglePause. rewrite Heq, Hplaying.
      by repeat (case_bool_decide; try done). }
    rewrite MathMasterFacts.frames_fixed.
    + destruct s. cbn in Heq, Hplaying. subst. reflexivity.
    + apply (balloon_update_idle (react PauseButton s)). by rewrite Hpaused.
Qed.

Lemma session_frozen_unless_playing_witness :
  react PauseButton (frames (react Frame) 100 (react PauseButton slowed)) = slowed ∧
  react (Touch 10 10) (initialState 0) = initialState 0.
Proof.
  destruct (session_frozen_unless_playing slowed eq_refl) as [_ Hpause].
  destruct (session_frozen_unless_playing (initialState 0) eq_refl) as [Hfrozen _].
  split; [apply Hpause; reflexivity|].
  apply Hfrozen; [discriminate | reflexivity].
Defined.

(** The balloon a click or touch leaves behind. *)
Lemma popAt_balloon (shown : Z) (pointX pointY : float) (s : State) (b : Balloon) :
  (popAt shown pointX pointY s b).2 = hitBy pointX pointY b.
Proof.
  unfold popAt, hitBy, within, handleBalloonPop.
  destruct (negb (popped b)); [|done]. cbn [andb].
  destruct (_ <=? _); [|done].
  cbn [type set_popped]. destruct (type b); split_ifs; done.
Qed.

Lemma forEach_balloons (body : State → Balloon → State * Balloon) (f : Balloon → Balloon) :
  (∀ s b, (body s b).2 = f b) →
  ∀ balloons s, (forEach body balloons s).2 = map f balloons.
Proof.
  intros Hbody. induction balloons as [|b balloons IH]; intros s; simpl; [done|].
  specialize (Hbody s b). destruct (body s b) as [s1 b1].
  specialize (IH s1). destruct (forEach body balloons s1). simpl in *. by subst.
Qed.

(** X14.  While playing, a click or a touch marks as popped every live
    balloon within one radius of the point, all of them when balloons
    overlap, and leaves every other balloon, and every position, type and
    speed, as it was: no balloon is removed, moved or revived by it. *)
Theorem click_pops_every_balloon_hit (pointX pointY : float) (s : State) :
  gameStateRef s = playing →
  balloonsRef (handleCanvasClick pointX pointY s) = map (hitBy pointX pointY) (balloonsRef s) ∧
  balloonsRef (handleTouch pointX pointY s) = map (hitBy pointX pointY) (balloonsRef s).
Proof.
  intros Hplaying.
  assert (Hpop : balloonsRef (popBalloons pointX pointY s)
                 = map (hitBy pointX pointY) (balloonsRef s)).
  { unfold popBalloons.
    pose proof (forEach_balloons _ _ (popAt_balloon (highScore s) pointX pointY)
                  (balloonsRef s) s) as Hloop.
    by destruct (forEach (popAt (highScore s) pointX pointY) (balloonsRef s) s). }
  unfold handleCanvasClick, handleTouch. rewrite Hplaying.
  by rewrite bool_decide_eq_false_2 by auto.
Qed.

(** A click where the bomb and the golden balloon overlap pops both. *)
Lemma click_pops_every_balloon_hit_witness :
  map popped (balloonsRef (handleCanvasClick 205 300 crowded)) = [true; true; false] ∧
  scoreRef (handleCanvasClick 205 300 crowded) = 0%Z ∧
  gameStateRef (handleCanvasClick 205 300 crowded) = gameOver.
Proof.
  destruct (click_pops_every_balloon_hit 205 300 crowded eq_refl) as [Hclick _].
  split; [rewrite Hclick|split]; vm_compute; reflexivity.
Defined.

Lemma forEach_popAt_miss (shown : Z) (pointX pointY : float) (balloons : list Balloon) :
  ∀ s : State,
    Forall (λ b, popped b = true ∨ within pointX pointY b = false) balloons →
    forEach (popAt shown pointX pointY) balloons s = (s, balloons).
Proof.
  induction balloons as [|b balloons IH]; intros s Hmiss; simpl; [done|].
  apply Forall_cons in Hmiss as [Hb Hrest].
  assert (Hone : popAt shown pointX pointY s b = (s, b)).
  { unfold popAt. unfold within in Hb. destruct Hb as [->| ->]; [done|].
    by destruct (negb (popped b)). }
  rewrite Hone. by rewrite IH.
Qed.

(** X15.  While playing, a click or a touch that is within one radius of no
    live balloon changes nothing: not the score, the combo, the lives or any
    balloon. *)
Theorem click_that_misses_changes_nothing (pointX pointY : float) (s : State) :
  gameStateRef s = playing →
  Forall (λ b, popped b = true ∨ within pointX pointY b = false) (balloonsRef s) →
  handleCanvasClick pointX pointY s = s ∧ handleTouch pointX pointY s = s.
Proof.
  intros Hplaying Hmiss.
  assert (Hpop : popBalloons pointX pointY s = s).
  { unfold popBalloons. rewrite forEach_popAt_miss by done. by destruct s. }
  unfold handleCanvasClick, handleTouch. rewrite Hplaying.
  by rewrite bool_decide_eq_false_2 by auto.
Qed.

Lemma click_that_misses_changes_nothing_witness :
  handleCanvasClick 350 100 crowded = crowded.
Proof.
  destruct (click_that_misses_changes_nothing 350 100 crowded eq_refl) as [Hclick _].
  - repeat (constructor; [right; vm_compute; reflexivity|]). constructor.
  - exact Hclick.
Defined.

(** X16.  What popping one balloon does, for a live balloon within reach:
    a positive base score is multiplied by the combo when the combo is above
    1, extends the combo by one and opens a 2000 ms combo window; a base
    score of zero or less (bomb, life) is added as it is and resets the
    combo.  A bomb costs a life, a life balloon adds one up to 5, a speed
    balloon starts the 5000 ms slow-down; other types leave the lives. *)
Theorem pop_of_one_balloon (shown : Z) (pointX pointY : float) (s : State) (b : Balloon) :
  popped b = false → within pointX pointY b = true →
  let base := tp_score (typeProps (type b)) in
  let s' := (popAt shown pointX pointY s b).1 in
  scoreRef s' = (scoreRef s + (if 0 <? base then base * Z.max 1 (comboRef s) else base))%Z ∧
  comboRef s' = (if 0 <? base then comboRef s + 1 else 0)%Z ∧
  comboTimerRef s' = (if 0 <? base then 2000 else comboTimerRef s)%Z ∧
  livesRef s' = match type b with
                | BOMB => (livesRef s - 1)%Z
                | LIFE => Z.min (livesRef s + 1) 5
                | _ => livesRef s
                end ∧
  (activePowerUpRef s', powerUpTimerRef s')
  = match type b with
    | SPEED => (Some SPEED_POWER, 5000%Z)
    | _ => (activePowerUpRef s, powerUpTimerRef s)
    end.
Proof.
  intros Hlive Hhit. unfold within in Hhit.
  unfold popAt, handleBalloonPop. rewrite Hlive, Hhit. cbn [negb type set_popped].
  destruct (type b); cbn -[Z.mul Z.add Z.max Z.min];
    split_ifs; arith_hyps; cbn -[Z.mul Z.add Z.max Z.min];
    repeat split; try done; lia.
Qed.

(** The golden balloon of [crowded] with a combo of 3: 5 times 3. *)
Lemma pop_of_one_balloon_witness :
  scoreRef (popAt 0 210 300 (set_comboRef 3 crowded) (mkBalloon 210 300 false GOLDEN 1.6)).1
  = 15%Z.
Proof.
  destruct (pop_of_one_balloon 0 210 300 (set_comboRef 3 crowded)
              (mkBalloon 210 300 false GOLDEN 1.6) eq_refl eq_refl) as [Hscore _].
  rewrite Hscore. reflexivity.
Defined.

End BalloonPopFacts.
